(** * first-steps: the user repository over a document store

    A shallow embedding of [repositories/user_repository.py] and
    [routers/user_router.py].  The repository threads two kinds of effect
    through every method: the document database (two collections, [users] and
    [counters]) together with the instance flag [_initialized], and the
    exceptions raised by the storage driver.  Both are modelled by one small
    state-and-exception monad.  A raised exception keeps the state reached so
    far, as in Python: a counter incremented before a failing insert stays
    incremented.

    What the model takes from the storage backend rather than from the
    repository's code:
    - a unique index refuses an insert that repeats its key, and cannot be
      built over documents that already repeat it; ensuring an index that
      exists with the same specification is a no-op;
    - [find_one_and_update] with [$inc] is one step of the store, counts a
      missing field as 0 and, with [upsert], creates the record;
    - integers are unbounded ([Z]); the driver's surrogate [_id] is fresh.

    Requests are served one at a time: the cooperative scheduling of the
    service and the passage of time are outside this development. *)

From stdpp Require Import base decidable option list gmap strings sorting.
From Stdlib Require Import ZArith NArith Ascii Lia.

Local Open Scope Z_scope.
Local Open Scope string_scope.
Local Open Scope list_scope.

(** ** utils/collections.py *)

Inductive Collections := USERS | COUNTERS.

Definition value (c : Collections) : string :=
  match c with
  | USERS => "users"
  | COUNTERS => "counters"
  end.

(** ** models/user.py *)

(** Modelled from the spec: [models/user.py] is not part of the sources.
    [UserCreate] carries the client-supplied profile attributes, which are
    opaque to the repository: a finite map from attribute name to value. *)
Abbreviation UserCreate := (gmap string string).

(** Modelled from the spec: [UserDB] of [models/user.py], the record built
    from the validated input, with the server-assigned [id] and
    [user_index]. *)
Record UserDB := mkUserDB {
  id : string;
  user_index : Z;
  fields : UserCreate
}.

(** Modelled from the spec: [UserOut] of [models/user.py], the record handed
    back to the client: [id], [user_index] and the profile attributes. *)
Record UserOut := mkUserOut {
  out_id : string;
  out_user_index : Z;
  out_fields : UserCreate
}.

(** [UserOut] built from the dump of a [UserDB] or from a projected document. *)
Definition UserOut_of (d : UserDB) : UserOut :=
  mkUserOut (id d) (user_index d) (fields d).

(** ** The document store *)

(** A document of the [users] collection as stored: the dictionary given to
    [insert_one] plus the surrogate [_id] the driver adds to it. *)
Record UserDoc := mkUserDoc {
  _id : nat;
  body : UserDB
}.

(** A document of the [counters] collection is keyed by its [_id]; the rest
    of the document maps field names to integers. *)
Abbreviation CounterDoc := (gmap string Z).

Record Index := mkIndex {
  ix_key : string;
  ix_unique : bool;
  ix_name : string
}.

#[global] Instance Index_eq_dec : EqDecision Index.
Proof. solve_decision. Defined.

Record Database := mkDatabase {
  users : list UserDoc;
  users_indexes : list Index;
  counters : gmap string CounterDoc
}.

(** Field values, as far as index keys and filters look at them. *)
Inductive Value :=
| VOid (n : nat)
| VStr (s : string)
| VInt (z : Z)
| VNull.

#[global] Instance Value_eq_dec : EqDecision Value.
Proof. solve_decision. Defined.

Definition get_field (key : string) (d : UserDoc) : Value :=
  if bool_decide (key = "_id") then VOid (_id d)
  else if bool_decide (key = "id") then VStr (id (body d))
  else if bool_decide (key = "user_index") then VInt (user_index (body d))
  else match fields (body d) !! key with
       | Some v => VStr v
       | None => VNull
       end.

(** ** Exceptions, storage calls, and the state the code runs in *)

Inductive exn :=
| DuplicateKeyError (index : string)
| OperationFailure (code : nat)
| HTTPException (status_code : nat) (detail : string).

(** One entry per call that reaches the storage backend. *)
Inductive Call :=
| CreateIndex (c : Collections) (key : string) (unique : bool) (name : string)
| FindOneAndUpdate (c : Collections) (doc_id field : string) (amount : Z)
| UpdateOne (c : Collections) (doc_id field : string) (v : Z)
| InsertOne (c : Collections) (document : UserDB)
| FindOne (c : Collections) (user_id : string).

Record State := mkState {
  _initialized : bool;        (* [self._initialized] of the instance in scope *)
  db : Database;              (* [self._db] *)
  calls : list Call;          (* storage calls issued so far, oldest first *)
  entropy : nat -> string;    (* the tokens the random generator will yield *)
  drawn : nat                 (* how many of them have been drawn *)
}.

Inductive outcome (A : Type) :=
| Return (a : A)
| Raise (e : exn).
Arguments Return {A} a.
Arguments Raise {A} e.

Definition M (A : Type) : Type := State -> outcome A * State.

Definition ret {A} (a : A) : M A := fun s => (Return a, s).

Definition bind {A B} (m : M A) (k : A -> M B) : M B := fun s =>
  match m s with
  | (Return a, s') => k a s'
  | (Raise e, s') => (Raise e, s')
  end.

Definition raise {A} (e : exn) : M A := fun s => (Raise e, s).

(** [try: m except DuplicateKeyError: h]; any other exception passes. *)
Definition try_except_DuplicateKeyError {A} (m : M A) (h : M A) : M A := fun s =>
  match m s with
  | (Raise (DuplicateKeyError _), s') => h s'
  | r => r
  end.

Notation "x <- m ;; k" := (bind m (fun x => k))
  (at level 100, m at next level, right associativity).
Notation "m ;;; k" := (bind m (fun _ => k))
  (at level 100, right associativity).

Definition set_initialized (b : bool) (s : State) : State :=
  mkState b (db s) (calls s) (entropy s) (drawn s).

Definition set_db (d : Database) (s : State) : State :=
  mkState (_initialized s) d (calls s) (entropy s) (drawn s).

Definition issue (c : Call) (s : State) : State :=
  mkState (_initialized s) (db s) (calls s ++ [c]) (entropy s) (drawn s).

(** Modelled from the spec: [generate_short_hex_id] of [models/user.py],
    "a short random hexadecimal token".  Randomness is the next token of the
    state's entropy source, so the claims hold for every generator. *)
Definition generate_short_hex_id : M string := fun s =>
  (Return (entropy s (drawn s)),
   mkState (_initialized s) (db s) (calls s) (entropy s) (S (drawn s))).

(** ** Storage primitives (the driver calls the repository makes) *)

Definition unique_on (key : string) (us : list UserDoc) : Prop :=
  NoDup (get_field key <$> us).

#[global] Instance unique_on_dec key us : Decision (unique_on key us).
Proof. unfold unique_on. apply _. Defined.

(** [collection.create_index(key, unique=..., name=...)] on [users].
    Creating an index that already exists with the same specification is a
    no-op; a clash of name or key with a different index is refused; a unique
    index cannot be built over documents that already repeat the key. *)
Definition users_create_index (key : string) (unique : bool) (name : string)
  : M unit := fun s0 =>
  let s := issue (CreateIndex USERS key unique name) s0 in
  let d := db s in
  let ix := mkIndex key unique name in
  if bool_decide (ix ∈ users_indexes d) then (Return (), s)
  else if existsb (fun j => bool_decide (ix_name j = name)
                            || bool_decide (ix_key j = key)) (users_indexes d)
  then (Raise (OperationFailure 85), s)
  else if unique && negb (bool_decide (unique_on key (users d)))
  then (Raise (DuplicateKeyError name), s)
  else (Return (),
        set_db (mkDatabase (users d) (users_indexes d ++ [ix]) (counters d)) s).

(** The first unique index, in creation order, that [doc] would violate. *)
Definition violated_index (doc : UserDoc) (d : Database) : option Index :=
  List.find (fun ix => ix_unique ix
     && existsb (fun u => bool_decide (get_field (ix_key ix) u
                                       = get_field (ix_key ix) doc)) (users d))
    (users_indexes d).

(** The driver generates the surrogate [_id]; it is fresh for the
    collection. *)
Definition fresh_oid (us : list UserDoc) : nat :=
  S (foldr Nat.max 0%nat (_id <$> us)).

(** [collection.insert_one(document)] on [users]. *)
Definition users_insert_one (document : UserDB) : M unit := fun s0 =>
  let s := issue (InsertOne USERS document) s0 in
  let d := db s in
  let doc := mkUserDoc (fresh_oid (users d)) document in
  match violated_index doc d with
  | Some ix => (Raise (DuplicateKeyError (ix_name ix)), s)
  | None =>
      (Return (),
       set_db (mkDatabase (users d ++ [doc]) (users_indexes d) (counters d)) s)
  end.

(** [collection.find_one({"id": user_id}, {"_id": 0})] on [users]: the first
    match in natural order, with the surrogate field projected away. *)
Definition users_find_one (user_id : string) : M (option UserDB) := fun s0 =>
  let s := issue (FindOne USERS user_id) s0 in
  (Return (body <$> List.find (fun u => bool_decide (id (body u) = user_id))
                              (users (db s))), s).

Inductive ReturnDocument := BEFORE | AFTER.

(** [$inc]: a missing field counts as 0. *)
Definition inc (field : string) (amount : Z) (doc : CounterDoc) : CounterDoc :=
  <[field := default 0 (doc !! field) + amount]> doc.

(** [collection.find_one_and_update({"_id": doc_id}, {"$inc": {field: amount}},
    upsert=..., return_document=...)] on [counters]: one atomic step of the
    storage engine. *)
Definition counters_find_one_and_update (doc_id field : string) (amount : Z)
    (upsert : bool) (return_document : ReturnDocument)
  : M (option CounterDoc) := fun s0 =>
  let s := issue (FindOneAndUpdate COUNTERS doc_id field amount) s0 in
  let d := db s in
  match counters d !! doc_id with
  | Some doc =>
      let doc' := inc field amount doc in
      (Return (Some (match return_document with BEFORE => doc | AFTER => doc' end)),
       set_db (mkDatabase (users d) (users_indexes d) (<[doc_id := doc']> (counters d))) s)
  | None =>
      if upsert then
        let doc' := inc field amount ∅ in
        (Return (match return_document with BEFORE => None | AFTER => Some doc' end),
         set_db (mkDatabase (users d) (users_indexes d) (<[doc_id := doc']> (counters d))) s)
      else (Return None, s)
  end.

(** [collection.update_one({"_id": doc_id}, {"$set": {field: v}}, upsert=...)]
    on [counters]. *)
Definition counters_update_one (doc_id field : string) (v : Z) (upsert : bool)
  : M unit := fun s0 =>
  let s := issue (UpdateOne COUNTERS doc_id field v) s0 in
  let d := db s in
  match counters d !! doc_id with
  | Some doc =>
      (Return (),
       set_db (mkDatabase (users d) (users_indexes d)
                          (<[doc_id := <[field := v]> doc]> (counters d))) s)
  | None =>
      if upsert then
        (Return (),
         set_db (mkDatabase (users d) (users_indexes d)
                            (<[doc_id := {[field := v]}]> (counters d))) s)
      else (Return (), s)
  end.

(** ** repositories/user_repository.py *)

(** [UserRepository.__init__]: a new instance over the shared database. *)
Definition UserRepository (s : State) : State := set_initialized false s.

Definition _initialize : M unit := fun s =>
  if _initialized s then (Return (), s)
  else
    (users_create_index "id" true "uniq_id" ;;;
     users_create_index "user_index" true "uniq_user_index" ;;;
     (fun s' => (Return (), set_initialized true s'))) s.

Definition _get_next_user_index : M Z :=
  result <- counters_find_one_and_update "user_index" "seq" 1 true AFTER ;;
  let seq := match result with
             | Some r => default 1 (r !! "seq")
             | None => 1
             end in
  (if bool_decide (seq = 1)
   then counters_update_one "user_index" "seq" 1 true
   else ret ()) ;;;
  ret seq.

Definition add_user (payload : UserCreate) : M UserOut :=
  _initialize ;;;
  new_id <- generate_short_hex_id ;;
  index <- _get_next_user_index ;;
  let user_db := mkUserDB new_id index payload in
  user_db <- try_except_DuplicateKeyError
    (users_insert_one user_db ;;; ret user_db)
    (retry_id <- generate_short_hex_id ;;
     let user_db := mkUserDB retry_id (user_index user_db) (fields user_db) in
     users_insert_one user_db ;;; ret user_db) ;;
  ret (UserOut_of user_db).

Definition get_user_by_id (user_id : string) : M (option UserOut) :=
  _initialize ;;;
  doc <- users_find_one user_id ;;
  match doc with
  | None => ret None
  | Some d => ret (Some (UserOut_of d))
  end.

(** ** routers/user_router.py *)

Definition get_user_repository : M unit := fun s => (Return (), UserRepository s).

Definition create_user (payload : UserCreate) : M UserOut :=
  get_user_repository ;;;
  add_user payload.

Definition get_user (user_id : string) : M UserOut :=
  get_user_repository ;;;
  user <- get_user_by_id user_id ;;
  match user with
  | None => raise (HTTPException 404 "User not found")
  | Some u => ret u
  end.

(** ** config/settings.py *)

(** The process environment after [load_dotenv()], names to values. *)
Definition getenv (environ : gmap string string) (key : string) : option string :=
  environ !! key.

(** [str.lower] as far as a comparison with a word of ASCII letters can
    tell: A-Z become a-z, every other byte stays as it is. *)
Definition lower_ascii (c : ascii) : ascii :=
  let n := N_of_ascii c in
  if ((65 <=? n) && (n <=? 90))%N then ascii_of_N (n + 32) else c.

Fixpoint lower (s : string) : string :=
  match s with
  | EmptyString => EmptyString
  | String c s' => String (lower_ascii c) (lower s')
  end.

(** [os.getenv("PORT", 8000)] is the variable's text, or the integer
    default. *)
Inductive Port :=
| PortStr (text : string)
| PortInt (n : Z).

Record Settings := mkSettings {
  app_name : string;
  debug_mode : bool;
  env : string;
  host : string;
  port : Port;
  mongo_uri : option string;
  mongo_db : option string
}.

Definition settings (environ : gmap string string) : Settings :=
  mkSettings
    (default "first-steps" (getenv environ "APP_NAME"))
    (bool_decide (lower (default "true" (getenv environ "DEBUG_MODE")) = "true"))
    (default "local" (getenv environ "ENV"))
    (default "0.0.0.0" (getenv environ "HOST"))
    (match getenv environ "PORT" with
     | Some text => PortStr text
     | None => PortInt 8000
     end)
    (getenv environ "MONGO_URI")
    (getenv environ "MONGO_DB").

(** ** Vocabulary of the properties *)

Definition uniq_id : Index := mkIndex "id" true "uniq_id".
Definition uniq_user_index : Index := mkIndex "user_index" true "uniq_user_index".

(** The data-model invariants: the only indexes on [users] are the two the
    repository creates, an initialized instance implies both exist, and no
    two stored users share an [id] or a [user_index]. *)
Definition consistent (s : State) : Prop :=
  users_indexes (db s) ⊆ [uniq_id; uniq_user_index]
  ∧ (_initialized s = true →
     uniq_id ∈ users_indexes (db s) ∧ uniq_user_index ∈ users_indexes (db s))
  ∧ unique_on "id" (users (db s))
  ∧ unique_on "user_index" (users (db s)).

#[global] Instance consistent_dec s : Decision (consistent s).
Proof. unfold consistent. apply _. Defined.

(** The last value issued by the [user_index] counter (0 before the first). *)
Definition last_seq (d : Database) : Z :=
  default 0 (counters d !! "user_index" ≫= (.!! "seq")).

Definition stored_ids (d : Database) : list string := (id ∘ body) <$> users d.
Definition stored_indexes (d : Database) : list Z := (user_index ∘ body) <$> users d.

(** The calls one run of a method added to the log. *)
Definition issued (s s' : State) : list Call := drop (length (calls s)) (calls s').

Definition creates (name : string) (c : Call) : bool :=
  match c with
  | CreateIndex USERS _ _ n => bool_decide (n = name)
  | _ => false
  end.

Definition is_increment (c : Call) : bool :=
  match c with
  | FindOneAndUpdate _ _ _ _ => true
  | _ => false
  end.

Definition is_corrective_write (c : Call) : bool :=
  match c with
  | UpdateOne _ _ _ _ => true
  | _ => false
  end.

Definition inserts (c : Call) : list UserDB :=
  match c with
  | InsertOne USERS d => [d]
  | _ => []
  end.

(** [n] calls in a row on the same instance; an exception ends the run. *)
Fixpoint times (n : nat) (m : M unit) : M unit :=
  match n with
  | O => ret ()
  | S n' => m ;;; times n' m
  end.

(** Independent requests served one after the other: a failed request does
    not stop the next one. *)
Fixpoint serve {A B} (handler : A -> M B) (requests : list A) (s : State)
  : list (outcome B) * State :=
  match requests with
  | [] => ([], s)
  | p :: ps =>
      let (r, s1) := handler p s in
      let (rs, s2) := serve handler ps s1 in
      (r :: rs, s2)
  end.

(** The documents a list of calls tried to insert, and its counter
    increments. *)
Definition inserted (l : list Call) : list UserDB := concat (inserts <$> l).

Definition increments (l : list Call) : list Call := List.filter is_increment l.

(** [_get_next_user_index] as the design notes would have it: the atomic
    increment alone, without the corrective write. *)
Definition _get_next_user_index_plain : M Z :=
  result <- counters_find_one_and_update "user_index" "seq" 1 true AFTER ;;
  let seq := match result with
             | Some r => default 1 (r !! "seq")
             | None => 1
             end in
  ret seq.

(** What two runs have in common when they differ at most in the calls they
    logged: the same outcome, database, instance flag and random draws. *)
Definition observably_equal {A} (r1 r2 : outcome A * State) : Prop :=
  r1.1 = r2.1
  ∧ db r1.2 = db r2.2
  ∧ _initialized r1.2 = _initialized r2.2
  ∧ entropy r1.2 = entropy r2.2
  ∧ drawn r1.2 = drawn r2.2.

(** An empty store and a first repository instance over it. *)
Definition empty_db : Database := mkDatabase [] [] ∅.

Definition initial (e : nat -> string) : State := mkState false empty_db [] e 0.

(** The counter record after one increment. *)
Definition incremented (d : Database) : CounterDoc :=
  inc "seq" 1 (default ∅ (counters d !! "user_index")).

(** The calls [_get_next_user_index] issues when it returns [n]. *)
Definition counter_calls (n : Z) : list Call :=
  FindOneAndUpdate COUNTERS "user_index" "seq" 1
  :: (if bool_decide (n = 1) then [UpdateOne COUNTERS "user_index" "seq" 1] else []).

(** The unique index that refuses [document], if any. *)
Definition violates (document : UserDB) (d : Database) : option Index :=
  violated_index (mkUserDoc (fresh_oid (users d)) document) d.

(** The database once [document] has been stored. *)
Definition stored (document : UserDB) (d : Database) : Database :=
  mkDatabase (users d ++ [mkUserDoc (fresh_oid (users d)) document])
             (users_indexes d) (counters d).

(** The database once the counter has been incremented. *)
Definition counted (d : Database) : Database :=
  mkDatabase (users d) (users_indexes d)
             (<["user_index" := incremented d]> (counters d)).

(** What a create handler guarantees on a consistent store: the counter
    advances by one, a returned user carries the new value, and the only
    failure is a duplicate key. *)
Definition creates_one (handler : UserCreate -> M UserOut) : Prop :=
  ∀ payload s, consistent s →
    ∃ r s', handler payload s = (r, s')
      ∧ consistent s'
      ∧ last_seq (db s') = last_seq (db s) + 1
      ∧ match r with
        | Return u => out_user_index u = last_seq (db s) + 1
        | Raise e => ∃ ix, e = DuplicateKeyError ix
        end.

(** The states the service can be in: the empty store, and whatever a
    request through the router, or a repository call on the instance in
    scope, leaves behind, whether it returned or raised. *)
Inductive reachable : State -> Prop :=
| reachable_initial e : reachable (initial e)
| reachable_create_user payload s :
    reachable s -> reachable (create_user payload s).2
| reachable_get_user user_id s :
    reachable s -> reachable (get_user user_id s).2
| reachable_add_user payload s :
    reachable s -> reachable (add_user payload s).2
| reachable_get_user_by_id user_id s :
    reachable s -> reachable (get_user_by_id user_id s).2.

(** The two storage calls a first [_initialize] issues. *)
Definition index_creations : list Call :=
  [CreateIndex USERS "id" true "uniq_id";
   CreateIndex USERS "user_index" true "uniq_user_index"].

(** Creation order: stored users carry strictly increasing [user_index]
    values, from 1 up to at most the last value the counter issued. *)
Definition in_order (s : State) : Prop :=
  StronglySorted Z.lt (stored_indexes (db s))
  ∧ Forall (fun i : Z => (1 ≤ i ≤ last_seq (db s))%Z) (stored_indexes (db s))
  ∧ (0 ≤ last_seq (db s))%Z.

(** [n] calls of [_get_next_user_index] in a row. *)
Definition next_user_indexes (n : nat) (s : State) : list (outcome Z) * State :=
  serve (fun _ : unit => _get_next_user_index) (replicate n ()) s.

(** The users a run of requests returned, in order. *)
Definition returned (rs : list (outcome UserOut)) : list UserOut :=
  omap (fun r => match r with Return u => Some u | Raise _ => None end) rs.

(** ** Sample data *)

Definition tokens (n : nat) : string :=
  match n with
  | 0%nat => "a1b2"
  | 1%nat => "c3d4"
  | 2%nat => "c3d4"
  | 3%nat => "e5f6"
  | _ => "ffff"
  end.

Definition ana : UserCreate := {[ "name" := "Ana" ]}.
Definition bo : UserCreate := {[ "name" := "Bo" ]}.

(** The store after Ana has been created from [initial tokens]. *)
Definition ana_created : State := (add_user ana (initial tokens)).2.

(** The store after Ana and Bo have been created; the next token drawn,
    "c3d4", is Bo's id. *)
Definition two_created : State := (serve add_user [ana; bo] (initial tokens)).2.

(** Ana's store after the [counters] collection has been lost: the next
    value the counter issues, 1, is Ana's [user_index]. *)
Definition counter_lost : State :=
  set_db (mkDatabase (users (db ana_created)) (users_indexes (db ana_created)) ∅)
         ana_created.

(** An instance that believes it is initialized over a store that has no
    index, with a generator that repeats itself. *)
Definition unconstrained : State :=
  mkState true empty_db [] (fun _ => "a1b2") 0.

(** Ana's store under a generator that only ever yields Ana's id: the next
    create collides twice. *)
Definition stuck : State := (add_user ana (initial (fun _ => "a1b2"))).2.

(** A store that was filled before any index existed and holds the same
    [id] twice. *)
Definition duplicated : State :=
  mkState false
    (mkDatabase [mkUserDoc 1 (mkUserDB "a1b2" 1 ana); mkUserDoc 2 (mkUserDB "a1b2" 2 bo)]
                [] ∅)
    [] tokens 0.

(** * Properties *)

(** Closed, decidable side conditions are settled by evaluation. *)
Ltac by_evaluation := apply (bool_decide_unpack _); vm_compute; exact I.

(** ** The monad and the state accessors *)

Lemma bind_Return {A B} (m : M A) (k : A -> M B) s a s' :
  m s = (Return a, s') → bind m k s = k a s'.
Proof. intros H. unfold bind. by rewrite H. Qed.

Lemma bind_Raise {A B} (m : M A) (k : A -> M B) s e s' :
  m s = (Raise e, s') → bind m k s = (Raise e, s').
Proof. intros H. unfold bind. by rewrite H. Qed.

Lemma issued_app s s' l : calls s' = calls s ++ l → issued s s' = l.
Proof. intros H. unfold issued. rewrite H. apply drop_app_length. Qed.

Lemma issued_refl s : issued s s = [].
Proof. apply issued_app. by rewrite app_nil_r. Qed.

(** ** _initialize *)

Lemma _initialize_done s : _initialized s = true → _initialize s = (Return (), s).
Proof. intros H. unfold _initialize. by rewrite H. Qed.

(** Whatever the store holds, one call of [_initialize] touches no document,
    issues a prefix of the two index creations, and sets the flag exactly
    when it returns. *)
Lemma _initialize_frame s :
  let '(r, s') := _initialize s in
  users (db s') = users (db s)
  ∧ counters (db s') = counters (db s)
  ∧ entropy s' = entropy s ∧ drawn s' = drawn s
  ∧ users_indexes (db s) ⊆ users_indexes (db s')
  ∧ (r = Return () → _initialized s' = true)
  ∧ (_initialized s = true → s' = s)
  ∧ ∃ l, calls s' = calls s ++ l
         ∧ (_initialized s = true → l = [])
         ∧ (l = [] ∨ l = [CreateIndex USERS "id" true "uniq_id"]
            ∨ l = [CreateIndex USERS "id" true "uniq_id";
                   CreateIndex USERS "user_index" true "uniq_user_index"]).
Proof.
  unfold _initialize.
  destruct (_initialized s) eqn:Hf.
  { repeat split; try done. exists []. rewrite app_nil_r. auto. }
  unfold bind, users_create_index.
  repeat (case_match; simplify_eq/=).
  all: repeat split; try done; try set_solver.
  all: eexists; split; [rewrite <- ?app_assoc; reflexivity | split; [done | simpl; auto]].
Qed.

Lemma known_index_cases ix :
  ix ∈ [uniq_id; uniq_user_index] → ix = uniq_id ∨ ix = uniq_user_index.
Proof. rewrite !elem_of_cons, elem_of_nil. tauto. Qed.

Lemma known_index_no_clash ix ixs :
  ix ∈ [uniq_id; uniq_user_index] →
  ixs ⊆ [uniq_id; uniq_user_index] →
  ix ∉ ixs →
  existsb (fun j => bool_decide (ix_name j = ix_name ix)
                    || bool_decide (ix_key j = ix_key ix)) ixs = false.
Proof.
  intros Hix Hsub Hnot. apply not_true_iff_false. intros H.
  apply existsb_exists in H as (j & Hj & Hc).
  apply list_elem_of_In in Hj. pose proof (Hsub _ Hj) as Hk.
  assert (j ≠ ix) as Hne by (intros ->; done).
  apply known_index_cases in Hk, Hix.
  destruct Hk as [Hk | Hk], Hix as [Hi | Hi]; subst; try done;
    vm_compute in Hc; done.
Qed.

(** On a consistent store a known unique index can always be ensured. *)
Lemma users_create_index_known ix s :
  ix ∈ [uniq_id; uniq_user_index] →
  users_indexes (db s) ⊆ [uniq_id; uniq_user_index] →
  unique_on (ix_key ix) (users (db s)) →
  ∃ s', users_create_index (ix_key ix) true (ix_name ix) s = (Return (), s')
    ∧ _initialized s' = _initialized s
    ∧ users (db s') = users (db s)
    ∧ counters (db s') = counters (db s)
    ∧ users_indexes (db s') ⊆ [uniq_id; uniq_user_index]
    ∧ users_indexes (db s) ⊆ users_indexes (db s')
    ∧ ix ∈ users_indexes (db s').
Proof.
  intros Hix Hsub Huniq.
  assert (ix = mkIndex (ix_key ix) true (ix_name ix)) as Heq
    by (destruct (known_index_cases _ Hix); by subst).
  unfold users_create_index. cbn [db issue].
  rewrite <- Heq. case_bool_decide as Hin.
  { eexists. split; [done |]. cbn. repeat split; done. }
  rewrite known_index_no_clash by done.
  rewrite (bool_decide_eq_true_2 _ Huniq). cbn.
  eexists. split; [done |]. cbn. repeat split; try done.
  - intros j [Hj | Hj%list_elem_of_singleton]%elem_of_app; [by apply Hsub | by subst].
  - intros j Hj. apply elem_of_app. by left.
  - apply elem_of_app. right. by apply list_elem_of_singleton.
Qed.

Lemma _initialize_consistent s :
  consistent s →
  ∃ s', _initialize s = (Return (), s')
    ∧ consistent s'
    ∧ _initialized s' = true
    ∧ uniq_id ∈ users_indexes (db s')
    ∧ uniq_user_index ∈ users_indexes (db s').
Proof.
  intros (Hsub & Hflag & Hid & Hidx).
  destruct (_initialized s) eqn:Hf.
  { exists s. rewrite _initialize_done by done.
    destruct (Hflag eq_refl). repeat split; try done. }
  unfold _initialize. rewrite Hf.
  destruct (users_create_index_known uniq_id s) as (s1 & E1 & F1 & U1 & C1 & S1 & M1 & I1);
    [rewrite !elem_of_cons; auto | done | done |].
  destruct (users_create_index_known uniq_user_index s1) as (s2 & E2 & F2 & U2 & C2 & S2 & M2 & I2);
    [rewrite !elem_of_cons; auto | done | by rewrite U1 |].
  cbn [ix_key ix_name uniq_id uniq_user_index] in E1, E2.
  erewrite bind_Return by exact E1. erewrite bind_Return by exact E2.
  eexists. split; [done |]. cbn.
  assert (uniq_id ∈ users_indexes (db s2)) by (by apply M2).
  repeat split; try done; cbn; by rewrite ?U2, ?U1.
Qed.

(** ** _get_next_user_index *)

Lemma incremented_seq d : incremented d !! "seq" = Some (last_seq d + 1).
Proof.
  unfold incremented, inc, last_seq. rewrite lookup_insert_eq.
  destruct (counters d !! "user_index") as [doc |]; simpl; [done |].
  by rewrite lookup_empty.
Qed.

Lemma find_one_and_update_run s :
  counters_find_one_and_update "user_index" "seq" 1 true AFTER s =
  (Return (Some (incremented (db s))),
   mkState (_initialized s)
     (mkDatabase (users (db s)) (users_indexes (db s))
        (<["user_index" := incremented (db s)]> (counters (db s))))
     (calls s ++ [FindOneAndUpdate COUNTERS "user_index" "seq" 1])
     (entropy s) (drawn s)).
Proof.
  unfold counters_find_one_and_update, incremented. cbn [db issue].
  destruct (counters (db s) !! "user_index"); reflexivity.
Qed.

Lemma _get_next_user_index_plain_run s :
  _get_next_user_index_plain s =
  (Return (last_seq (db s) + 1),
   mkState (_initialized s)
     (mkDatabase (users (db s)) (users_indexes (db s))
        (<["user_index" := incremented (db s)]> (counters (db s))))
     (calls s ++ [FindOneAndUpdate COUNTERS "user_index" "seq" 1])
     (entropy s) (drawn s)).
Proof.
  unfold _get_next_user_index_plain.
  erewrite bind_Return by apply find_one_and_update_run.
  cbv beta iota zeta. by rewrite incremented_seq.
Qed.

Lemma _get_next_user_index_run s :
  _get_next_user_index s =
  (Return (last_seq (db s) + 1),
   mkState (_initialized s)
     (mkDatabase (users (db s)) (users_indexes (db s))
        (<["user_index" := incremented (db s)]> (counters (db s))))
     (calls s ++ counter_calls (last_seq (db s) + 1))
     (entropy s) (drawn s)).
Proof.
  unfold _get_next_user_index.
  erewrite bind_Return by apply find_one_and_update_run.
  cbv beta iota zeta. rewrite incremented_seq.
  replace (default 1 (Some (last_seq (db s) + 1))) with (last_seq (db s) + 1)
    by reflexivity.
  unfold counter_calls. case_bool_decide as Hone.
  - unfold bind, counters_update_one, ret, set_db, issue.
    cbn [db calls users users_indexes counters _initialized entropy drawn].
    rewrite lookup_insert_eq, insert_insert_eq.
    rewrite (insert_id (incremented (db s)) "seq" 1)
      by (rewrite incremented_seq; f_equal; exact Hone).
    by rewrite <- app_assoc.
  - reflexivity.
Qed.

Lemma last_seq_incremented d us ixs :
  last_seq (mkDatabase us ixs (<["user_index" := incremented d]> (counters d)))
  = last_seq d + 1.
Proof.
  unfold last_seq at 1. cbn [counters]. rewrite lookup_insert_eq. cbn.
  by rewrite incremented_seq.
Qed.

(** ** add_user *)

Lemma users_insert_one_run document s :
  users_insert_one document s =
  match violates document (db s) with
  | Some ix =>
      (Raise (DuplicateKeyError (ix_name ix)),
       mkState (_initialized s) (db s) (calls s ++ [InsertOne USERS document])
               (entropy s) (drawn s))
  | None =>
      (Return (),
       mkState (_initialized s) (stored document (db s))
               (calls s ++ [InsertOne USERS document]) (entropy s) (drawn s))
  end.
Proof.
  unfold users_insert_one, violates. cbn [db issue].
  destruct (violated_index _ _); reflexivity.
Qed.

(** The master equation of [add_user] once initialization has returned: one
    token, one counter increment, one insert and, when that is refused, one
    more token and one more insert. *)
Lemma add_user_run payload s s1 :
  _initialize s = (Return (), s1) →
  let n := last_seq (db s1) + 1 in
  let doc1 := mkUserDB (entropy s1 (drawn s1)) n payload in
  let doc2 := mkUserDB (entropy s1 (S (drawn s1))) n payload in
  let d := counted (db s1) in
  add_user payload s =
  match violates doc1 d with
  | None =>
      (Return (UserOut_of doc1),
       mkState (_initialized s1) (stored doc1 d)
         (calls s1 ++ counter_calls n ++ [InsertOne USERS doc1])
         (entropy s1) (S (drawn s1)))
  | Some _ =>
      match violates doc2 d with
      | None =>
          (Return (UserOut_of doc2),
           mkState (_initialized s1) (stored doc2 d)
             (calls s1 ++ counter_calls n ++ [InsertOne USERS doc1; InsertOne USERS doc2])
             (entropy s1) (S (S (drawn s1))))
      | Some ix =>
          (Raise (DuplicateKeyError (ix_name ix)),
           mkState (_initialized s1) d
             (calls s1 ++ counter_calls n ++ [InsertOne USERS doc1; InsertOne USERS doc2])
             (entropy s1) (S (S (drawn s1))))
      end
  end.
Proof.
  intros Hinit n doc1 doc2 d. unfold add_user.
  erewrite bind_Return by exact Hinit.
  unfold bind, try_except_DuplicateKeyError, generate_short_hex_id, ret.
  rewrite _get_next_user_index_run.
  cbn [db _initialized calls entropy drawn user_index fields].
  rewrite !users_insert_one_run.
  cbn [db _initialized calls entropy drawn].
  change (mkDatabase (users (db s1)) (users_indexes (db s1))
            (<["user_index" := incremented (db s1)]> (counters (db s1)))) with d.
  fold n. fold doc1. fold doc2.
  destruct (violates doc1 d) as [ix1 |] eqn:V1.
  - rewrite users_insert_one_run.
    cbn [db _initialized calls entropy drawn]. fold doc2.
    destruct (violates doc2 d) as [ix2 |] eqn:V2;
      rewrite <- !app_assoc; reflexivity.
  - rewrite <- !app_assoc. reflexivity.
Qed.

(** ** Unique indexes and the documents they admit *)

Lemma get_field_id u : get_field "id" u = VStr (id (body u)).
Proof. reflexivity. Qed.

Lemma get_field_user_index u : get_field "user_index" u = VInt (user_index (body u)).
Proof. reflexivity. Qed.

Lemma unique_on_id us : unique_on "id" us ↔ NoDup ((id ∘ body) <$> us).
Proof.
  unfold unique_on.
  replace (get_field "id" <$> us) with (VStr <$> ((id ∘ body) <$> us))
    by (by rewrite <- list_fmap_compose).
  apply NoDup_fmap. by intros ?? [= ->].
Qed.

Lemma unique_on_user_index us :
  unique_on "user_index" us ↔ NoDup ((user_index ∘ body) <$> us).
Proof.
  unfold unique_on.
  replace (get_field "user_index" <$> us)
    with (VInt <$> ((user_index ∘ body) <$> us))
    by (by rewrite <- list_fmap_compose).
  apply NoDup_fmap. by intros ?? [= ->].
Qed.

Lemma collides_iff key doc (us : list UserDoc) :
  existsb (fun u => bool_decide (get_field key u = get_field key doc)) us = true
  ↔ get_field key doc ∈ get_field key <$> us.
Proof.
  rewrite existsb_exists, list_elem_of_fmap. split.
  - intros (u & Hin & Heq). apply bool_decide_eq_true in Heq.
    exists u. split; [done | by apply list_elem_of_In].
  - intros (u & Heq & Hin). exists u. split; [by apply list_elem_of_In |].
    by apply bool_decide_eq_true.
Qed.

Lemma field_id_elem doc (us : list UserDoc) :
  get_field "id" doc ∈ get_field "id" <$> us ↔ id (body doc) ∈ (id ∘ body) <$> us.
Proof.
  rewrite !list_elem_of_fmap. split; intros (u & Heq & Hin); exists u; split; try done.
  - rewrite !get_field_id in Heq. by injection Heq.
  - rewrite !get_field_id. simpl in Heq. by rewrite Heq.
Qed.

Lemma field_user_index_elem doc (us : list UserDoc) :
  get_field "user_index" doc ∈ get_field "user_index" <$> us
  ↔ user_index (body doc) ∈ (user_index ∘ body) <$> us.
Proof.
  rewrite !list_elem_of_fmap. split; intros (u & Heq & Hin); exists u; split; try done.
  - rewrite !get_field_user_index in Heq. by injection Heq.
  - rewrite !get_field_user_index. simpl in Heq. by rewrite Heq.
Qed.

(** A refused document collides with a stored one on the key of a unique
    index of the collection. *)
Lemma violates_Some document d ix :
  violates document d = Some ix →
  ix ∈ users_indexes d ∧ ix_unique ix = true
  ∧ get_field (ix_key ix) (mkUserDoc (fresh_oid (users d)) document)
    ∈ get_field (ix_key ix) <$> users d.
Proof.
  unfold violates, violated_index. intros H.
  apply find_some in H as [Hin Hc]. apply andb_true_iff in Hc as [Hu Hc].
  split; [by apply list_elem_of_In |]. split; [done |].
  by apply collides_iff.
Qed.

Lemma violates_None document d ix :
  violates document d = None →
  ix ∈ users_indexes d → ix_unique ix = true →
  get_field (ix_key ix) (mkUserDoc (fresh_oid (users d)) document)
    ∉ get_field (ix_key ix) <$> users d.
Proof.
  unfold violates, violated_index. intros H Hin Hu Hc.
  apply list_elem_of_In in Hin.
  pose proof (find_none _ _ H _ Hin) as Hf. cbn beta in Hf.
  rewrite Hu in Hf. apply collides_iff in Hc. cbn in Hf. congruence.
Qed.

Lemma violates_None_intro document d :
  users_indexes d ⊆ [uniq_id; uniq_user_index] →
  id document ∉ stored_ids d →
  user_index document ∉ stored_indexes d →
  violates document d = None.
Proof.
  intros Hsub Hid Hidx.
  destruct (violates document d) as [ix |] eqn:V; [| done].
  apply violates_Some in V as (Hin & _ & Hc).
  apply Hsub, known_index_cases in Hin as [-> | ->].
  - apply field_id_elem in Hc. done.
  - apply field_user_index_elem in Hc. done.
Qed.

Lemma violates_None_elim document d :
  uniq_id ∈ users_indexes d → uniq_user_index ∈ users_indexes d →
  violates document d = None →
  (id document ∉ stored_ids d) ∧ (user_index document ∉ stored_indexes d).
Proof.
  intros H1 H2 V. split; intros Hin.
  - eapply (violates_None _ _ uniq_id); [done .. |]. by apply field_id_elem.
  - eapply (violates_None _ _ uniq_user_index); [done .. |].
    by apply field_user_index_elem.
Qed.

(** A stored [user_index] refuses every document that carries it, whatever
    its [id]. *)
Lemma violates_user_index document d :
  uniq_user_index ∈ users_indexes d →
  user_index document ∈ stored_indexes d →
  ∃ ix, violates document d = Some ix.
Proof.
  intros Hix Hin. destruct (violates document d) as [ix |] eqn:V; [by eexists |].
  exfalso. eapply (violates_None _ _ uniq_user_index); [done .. |].
  by apply field_user_index_elem.
Qed.

Lemma violates_id document d :
  uniq_id ∈ users_indexes d →
  id document ∈ stored_ids d →
  ∃ ix, violates document d = Some ix.
Proof.
  intros Hix Hin. destruct (violates document d) as [ix |] eqn:V; [by eexists |].
  exfalso. eapply (violates_None _ _ uniq_id); [done .. |]. by apply field_id_elem.
Qed.

(** ** Consistency is an invariant of the repository *)

Lemma consistent_ext s s' :
  _initialized s' = _initialized s →
  users (db s') = users (db s) →
  users_indexes (db s') = users_indexes (db s) →
  consistent s → consistent s'.
Proof. unfold consistent. by intros -> -> ->. Qed.

Lemma consistent_initial e : consistent (initial e).
Proof.
  unfold consistent, initial, unique_on. cbn. repeat split; try done.
  - by intros x Hx%elem_of_nil.
  - apply NoDup_nil_2.
  - apply NoDup_nil_2.
Qed.

Lemma consistent_UserRepository s : consistent s → consistent (UserRepository s).
Proof. unfold consistent. cbn. intros (? & _ & ? & ?). repeat split; done. Qed.

Lemma consistent_stored document s cs e n :
  consistent s →
  violates document (db s) = None →
  uniq_id ∈ users_indexes (db s) →
  uniq_user_index ∈ users_indexes (db s) →
  consistent (mkState (_initialized s) (stored document (db s)) cs e n).
Proof.
  intros (Hsub & Hflag & Hid & Hidx) V I1 I2.
  destruct (violates_None_elim _ _ I1 I2 V) as [N1 N2].
  unfold consistent. cbn. repeat split; try done.
  - apply unique_on_id. rewrite fmap_app. apply NoDup_app.
    split; [by apply unique_on_id |]. split; [| apply NoDup_singleton].
    intros x Hx Hx'%list_elem_of_singleton. cbn in Hx'. by subst.
  - apply unique_on_user_index. rewrite fmap_app. apply NoDup_app.
    split; [by apply unique_on_user_index |]. split; [| apply NoDup_singleton].
    intros x Hx Hx'%list_elem_of_singleton. cbn in Hx'. by subst.
Qed.

(** What [_initialize] leaves untouched, packaged for a run that returned. *)
Lemma _initialize_Return s s1 :
  _initialize s = (Return (), s1) →
  users (db s1) = users (db s) ∧ counters (db s1) = counters (db s)
  ∧ entropy s1 = entropy s ∧ drawn s1 = drawn s ∧ _initialized s1 = true
  ∧ ∃ l, calls s1 = calls s ++ l ∧ (_initialized s = true → l = [])
       ∧ (l = [] ∨ l = [CreateIndex USERS "id" true "uniq_id"]
            ∨ l = [CreateIndex USERS "id" true "uniq_id";
                   CreateIndex USERS "user_index" true "uniq_user_index"]).
Proof.
  intros E. pose proof (_initialize_frame s) as H. rewrite E in H.
  destruct H as (? & ? & ? & ? & ? & Hf & ? & ?). repeat split; auto.
Qed.

(** Every create request on a consistent store: the counter advances by
    exactly one, a returned user carries the new counter value, the only
    possible failure is a duplicate key, and consistency is kept. *)
Lemma add_user_consistent payload s :
  consistent s →
  ∃ r s', add_user payload s = (r, s')
    ∧ consistent s'
    ∧ _initialized s' = true
    ∧ last_seq (db s') = last_seq (db s) + 1
    ∧ match r with
      | Return u =>
          out_user_index u = last_seq (db s) + 1
          ∧ out_fields u = payload
          ∧ ∃ o, users (db s') = users (db s)
                   ++ [mkUserDoc o (mkUserDB (out_id u) (out_user_index u) payload)]
      | Raise e => (∃ ix, e = DuplicateKeyError ix) ∧ users (db s') = users (db s)
      end.
Proof.
  intros Hc. destruct (_initialize_consistent s Hc) as (s1 & E & Hc1 & F1 & I1 & I2).
  destruct (_initialize_Return _ _ E) as (U1 & C1 & _).
  rewrite (add_user_run payload s s1 E).
  assert (last_seq (db s1) = last_seq (db s)) as Hseq
    by (unfold last_seq; by rewrite C1).
  set (d := counted (db s1)).
  assert (last_seq d = last_seq (db s) + 1) as Hd
    by (unfold d, counted; rewrite last_seq_incremented; lia).
  assert (consistent (mkState (_initialized s1) d (calls s1) (entropy s1) (drawn s1)))
    as Hcd by (by apply (consistent_ext s1)).
  cbv zeta. rewrite Hseq.
  set (doc1 := mkUserDB (entropy s1 (drawn s1)) (last_seq (db s) + 1) payload).
  set (doc2 := mkUserDB (entropy s1 (S (drawn s1))) (last_seq (db s) + 1) payload).
  destruct (violates doc1 d) as [ix1 |] eqn:V1;
    [destruct (violates doc2 d) as [ix2 |] eqn:V2 |].
  - do 2 eexists. split; [done |]. split; [by eapply consistent_ext; [.. | exact Hcd] |].
    cbn. rewrite U1. repeat split; try done. by eexists.
  - do 2 eexists. split; [done |].
    split; [by apply (consistent_stored _ _ _ _ _ Hcd V2) |].
    cbn. rewrite U1. repeat split; try done. by eexists.
  - do 2 eexists. split; [done |].
    split; [by apply (consistent_stored _ _ _ _ _ Hcd V1) |].
    cbn. rewrite U1. repeat split; try done. by eexists.
Qed.

Lemma create_user_add_user payload s :
  create_user payload s = add_user payload (UserRepository s).
Proof. reflexivity. Qed.

(** ** Sequences of create requests *)

Section Requests.

Variable handler : UserCreate -> M UserOut.
Hypothesis handler_creates_one : creates_one handler.

Lemma serve_creates payloads : ∀ s,
  consistent s →
  ∃ rs s', serve handler payloads s = (rs, s')
    ∧ consistent s'
    ∧ length rs = length payloads
    ∧ last_seq (db s') = last_seq (db s) + Z.of_nat (length payloads)
    ∧ ∀ (i : nat) r, rs !! i = Some r →
        match r with
        | Return u => out_user_index u = last_seq (db s) + 1 + Z.of_nat i
        | Raise e => ∃ ix, e = DuplicateKeyError ix
        end.
Proof.
  induction payloads as [| p ps IH]; intros s Hc.
  - exists [], s. cbn. split; [done |]. split; [done |]. split; [done |].
    split; [lia |]. intros i r Hi. by rewrite lookup_nil in Hi.
  - destruct (handler_creates_one p s Hc) as (r & s1 & E & Hc1 & Hs1 & Hr).
    destruct (IH s1 Hc1) as (rs & s2 & E2 & Hc2 & Hlen & Hs2 & Hrs).
    exists (r :: rs), s2. cbn [serve]. rewrite E, E2.
    split; [done |]. split; [done |]. split; [| split].
    + cbn [length]. by rewrite Hlen.
    + rewrite Hs2, Hs1. cbn [length]. lia.
    + intros [| i] r' Hi; cbn in Hi.
      * injection Hi as <-. destruct r; [| done]. rewrite Hr. lia.
      * specialize (Hrs i r' Hi). destruct r'; [| done]. rewrite Hrs, Hs1. lia.
Qed.

(** When every request returns, the assigned values are exactly
    k, k+1, ..., k+N-1. *)
Lemma serve_all_returned payloads s rs s' us :
  consistent s →
  serve handler payloads s = (rs, s') →
  rs = Return <$> us →
  out_user_index <$> us = seqZ (last_seq (db s) + 1) (Z.of_nat (length payloads)).
Proof.
  intros Hc E ->.
  destruct (serve_creates payloads s Hc) as (rs & s2 & E2 & _ & Hlen & _ & Hrs).
  rewrite E in E2. injection E2 as <- <-. rewrite length_fmap in Hlen.
  apply list_eq. intros i.
  rewrite list_lookup_fmap.
  destruct (us !! i) as [u |] eqn:Hu; cbn.
  - pose proof (lookup_lt_Some _ _ _ Hu) as Hlt.
    rewrite lookup_seqZ_lt by lia.
    specialize (Hrs i (Return u)). rewrite list_lookup_fmap, Hu in Hrs.
    rewrite (Hrs eq_refl). f_equal.
  - apply lookup_ge_None in Hu. symmetry. apply lookup_seqZ_ge. lia.
Qed.

End Requests.

Lemma add_user_creates_one : creates_one add_user.
Proof.
  intros payload s Hc.
  destruct (add_user_consistent payload s Hc) as (r & s' & E & Hc' & _ & Hs & Hr).
  exists r, s'. split; [done |]. split; [done |]. split; [done |].
  destruct r; [by destruct Hr | by destruct Hr].
Qed.

Lemma create_user_creates_one : creates_one create_user.
Proof.
  intros payload s Hc. rewrite create_user_add_user.
  exact (add_user_creates_one payload (UserRepository s)
           (consistent_UserRepository s Hc)).
Qed.

(** ** The counter *)

(** C2. [_get_next_user_index] issues exactly one find-and-increment, on the
    counter record whose [_id] is "user_index".  It adds 1 to the field
    [seq], creates the record as [{seq: 1}] when it is absent, leaves every
    other counter record and the [users] collection alone, and returns the
    value [seq] holds after the increment. *)
Theorem _get_next_user_index_increments s :
  ∃ n s', _get_next_user_index s = (Return n, s')
    ∧ increments (issued s s') = [FindOneAndUpdate COUNTERS "user_index" "seq" 1]
    ∧ counters (db s') !! "user_index" ≫= (.!! "seq") = Some n
    ∧ n = default 0 (counters (db s) !! "user_index" ≫= (.!! "seq")) + 1
    ∧ (counters (db s) !! "user_index" = None →
       counters (db s') !! "user_index" = Some {["seq" := 1]} ∧ n = 1)
    ∧ (∀ doc, counters (db s) !! "user_index" = Some doc →
       counters (db s') !! "user_index"
       = Some (<["seq" := default 0 (doc !! "seq") + 1]> doc))
    ∧ (∀ k, k ≠ "user_index" → counters (db s') !! k = counters (db s) !! k)
    ∧ users (db s') = users (db s)
    ∧ users_indexes (db s') = users_indexes (db s).
Proof.
  do 2 eexists. split; [apply _get_next_user_index_run |].
  cbn [db counters users users_indexes].
  split.
  { erewrite issued_app by reflexivity. unfold counter_calls.
    by case_bool_decide. }
  split; [by rewrite lookup_insert_eq; cbn; rewrite incremented_seq |].
  split; [done |].
  split.
  { intros Hnone. rewrite lookup_insert_eq. unfold incremented, inc, last_seq.
    rewrite Hnone. cbn. rewrite lookup_empty. cbn. split; reflexivity. }
  split.
  { intros doc Hdoc. rewrite lookup_insert_eq. unfold incremented, inc.
    by rewrite Hdoc. }
  split; [| done].
  intros k Hk. by rewrite lookup_insert_ne.
Qed.

(** C8. The corrective write is issued exactly when the value returned is 1,
    and it never changes anything: with or without it,
    [_get_next_user_index] returns the same value and leaves the same
    database, instance flag and random source. *)
Theorem corrective_write_is_noop s :
  observably_equal (_get_next_user_index s) (_get_next_user_index_plain s)
  ∧ ∃ n, (_get_next_user_index s).1 = Return n
      ∧ List.filter is_corrective_write (issued s (_get_next_user_index s).2)
        = (if bool_decide (n = 1)
           then [UpdateOne COUNTERS "user_index" "seq" 1] else [])
      ∧ List.filter is_corrective_write
          (issued s (_get_next_user_index_plain s).2) = [].
Proof.
  rewrite _get_next_user_index_run, _get_next_user_index_plain_run.
  split; [by repeat split |].
  eexists. split; [done |]. cbn [snd].
  erewrite !issued_app by reflexivity. unfold counter_calls.
  by case_bool_decide.
Qed.

(** ** Initialization *)

Lemma times_initialized k : ∀ s,
  _initialized s = true → times k _initialize s = (Return (), s).
Proof.
  induction k as [| k IH]; intros s Hf; [done |].
  cbn [times]. erewrite bind_Return by (by apply _initialize_done). by apply IH.
Qed.

(** C7. However often [_initialize] is called in a row on an instance, the
    storage calls issued are a prefix of the two index creations, so each
    creation is issued at most once; once a first call has returned, every
    further call returns and leaves the whole state as it is; and on a
    consistent store no call fails.  (A first call raises only when the
    store already breaks a uniqueness invariant; the flag then stays
    unset and the exception ends the run.) *)
Theorem _initialize_idempotent s n :
  let '(r, s') := times n _initialize s in
  issued s s' `prefix_of` [CreateIndex USERS "id" true "uniq_id";
                           CreateIndex USERS "user_index" true "uniq_user_index"]
  ∧ (length (List.filter (creates "uniq_id") (issued s s')) ≤ 1)%nat
  ∧ (length (List.filter (creates "uniq_user_index") (issued s s')) ≤ 1)%nat
  ∧ (∀ s1, _initialize s = (Return (), s1) →
       ∀ k, times k _initialize s1 = (Return (), s1))
  ∧ (consistent s → r = Return ()).
Proof.
  assert (∀ s1, _initialize s = (Return (), s1) →
            ∀ k, times k _initialize s1 = (Return (), s1)) as Hnoop.
  { intros s1 E k. apply times_initialized.
    by destruct (_initialize_Return _ _ E) as (_ & _ & _ & _ & ? & _). }
  destruct n as [| n].
  { cbn. rewrite issued_refl. cbn. repeat split; try done; try lia.
    apply prefix_nil. }
  cbn [times]. unfold bind.
  pose proof (_initialize_frame s) as Hfr.
  destruct (_initialize s) as [r1 s1] eqn:E.
  destruct Hfr as (_ & _ & _ & _ & _ & Hflag & _ & l & Hl & _ & Hcases).
  assert (∃ r, (match r1 with
                | Return _ => times n _initialize s1
                | Raise e => (Raise e, s1)
                end) = (r, s1) ∧ (consistent s → r = Return ())) as (r & -> & Hr).
  { destruct r1 as [[] | e].
    - rewrite times_initialized by auto. by eexists.
    - eexists. split; [done |]. intros Hc.
      destruct (_initialize_consistent s Hc) as (? & E' & _). congruence. }
  rewrite (issued_app _ _ _ Hl).
  split.
  { destruct Hcases as [-> | [-> | ->]].
    - apply prefix_nil.
    - by exists [CreateIndex USERS "user_index" true "uniq_user_index"].
    - done. }
  split; [destruct Hcases as [-> | [-> | ->]]; vm_compute; lia |].
  split; [destruct Hcases as [-> | [-> | ->]]; vm_compute; lia |].
  by split.
Qed.

(** ** Lookup *)

Lemma find_unique (us : list UserDoc) doc :
  NoDup ((id ∘ body) <$> us) →
  doc ∈ us →
  List.find (fun u => bool_decide (id (body u) = id (body doc))) us = Some doc.
Proof.
  induction us as [| u us IH]; intros Hnd Hin; [by apply elem_of_nil in Hin |].
  rewrite fmap_cons in Hnd. apply NoDup_cons in Hnd as [Hnotin Hnd].
  cbn [List.find]. apply elem_of_cons in Hin as [<- | Hin].
  - by rewrite bool_decide_eq_true_2.
  - rewrite bool_decide_eq_false_2; [by apply IH |].
    intros Heq. apply Hnotin. cbn. rewrite Heq.
    apply list_elem_of_fmap. by exists doc.
Qed.

Lemma find_missing (us : list UserDoc) user_id :
  user_id ∉ (id ∘ body) <$> us →
  List.find (fun u => bool_decide (id (body u) = user_id)) us = None.
Proof.
  intros Hnot. destruct (List.find _ us) as [u |] eqn:F; [| done].
  apply find_some in F as [Hin Heq]. apply bool_decide_eq_true in Heq.
  exfalso. apply Hnot. apply list_elem_of_fmap. exists u.
  split; [done | by apply list_elem_of_In].
Qed.

Lemma users_find_one_run user_id s :
  users_find_one user_id s =
  (Return (body <$> List.find (fun u => bool_decide (id (body u) = user_id))
                              (users (db s))),
   mkState (_initialized s) (db s) (calls s ++ [FindOne USERS user_id])
           (entropy s) (drawn s)).
Proof. reflexivity. Qed.

Lemma get_user_by_id_found doc s :
  consistent s →
  doc ∈ users (db s) →
  ∃ s', get_user_by_id (id (body doc)) s = (Return (Some (UserOut_of (body doc))), s').
Proof.
  intros Hc Hin.
  destruct (_initialize_consistent s Hc) as (s1 & E & Hc1 & _).
  destruct (_initialize_Return _ _ E) as (U1 & _).
  unfold get_user_by_id. erewrite bind_Return by exact E.
  unfold bind. rewrite users_find_one_run, U1.
  rewrite find_unique; [by eexists | | done].
  destruct Hc as (_ & _ & Hid & _). by apply unique_on_id.
Qed.

Lemma get_user_by_id_missing user_id s :
  consistent s →
  user_id ∉ stored_ids (db s) →
  ∃ s', get_user_by_id user_id s = (Return None, s').
Proof.
  intros Hc Hnot.
  destruct (_initialize_consistent s Hc) as (s1 & E & Hc1 & _).
  destruct (_initialize_Return _ _ E) as (U1 & _).
  unfold get_user_by_id. erewrite bind_Return by exact E.
  unfold bind. rewrite users_find_one_run, U1.
  rewrite find_missing by done. by eexists.
Qed.

(** Whatever [get_user_by_id] returns is the projection of a stored
    document with the requested [id]. *)
Lemma get_user_by_id_Some user_id s u s' :
  get_user_by_id user_id s = (Return (Some u), s') →
  ∃ doc, doc ∈ users (db s) ∧ id (body doc) = user_id ∧ u = UserOut_of (body doc).
Proof.
  unfold get_user_by_id, bind.
  pose proof (_initialize_frame s) as Hfr.
  destruct (_initialize s) as [[[] | e] s1]; [| done].
  destruct Hfr as (U1 & _). rewrite users_find_one_run, U1.
  destruct (List.find _ _) as [doc |] eqn:F; cbn; [| done].
  intros [= <- <-]. apply find_some in F as [Hin Heq].
  apply bool_decide_eq_true in Heq. exists doc.
  split; [by apply list_elem_of_In | done].
Qed.

(** C10. [get_user_by_id] stores, changes and removes no document: the
    [users] and [counters] collections are the same before and after the
    call, for every id and every state, also when the call raises.  It issues
    no insert and no counter operation; the indexes can only grow, and on an
    initialized instance the whole database is unchanged. *)
Theorem get_user_by_id_frame user_id s :
  let '(r, s') := get_user_by_id user_id s in
  users (db s') = users (db s)
  ∧ counters (db s') = counters (db s)
  ∧ users_indexes (db s) ⊆ users_indexes (db s')
  ∧ (_initialized s = true → db s' = db s)
  ∧ inserted (issued s s') = []
  ∧ increments (issued s s') = []
  ∧ List.filter is_corrective_write (issued s s') = [].
Proof.
  unfold get_user_by_id, bind.
  pose proof (_initialize_frame s) as Hfr.
  destruct (_initialize s) as [[[] | e] s1] eqn:E;
    destruct Hfr as (HU & HC & _ & _ & HI & _ & Hsame & l & Hl & _ & Hcases).
  - unfold users_find_one. cbn [db issue].
    destruct (List.find _ _); cbn [fmap option_fmap option_map ret];
      unfold ret; cbn [db issue calls].
    all: erewrite (issued_app s _ (l ++ [FindOne USERS user_id]))
           by (cbn; by rewrite Hl, <- app_assoc).
    all: repeat split; try done; try (by intros Hf; rewrite (Hsame Hf)).
    all: destruct Hcases as [-> | [-> | ->]]; reflexivity.
  - rewrite (issued_app _ _ _ Hl).
    repeat split; try done; try (by intros Hf; rewrite (Hsame Hf)).
    all: destruct Hcases as [-> | [-> | ->]]; reflexivity.
Qed.

Lemma get_user_by_id_consistent user_id s :
  consistent s → consistent (get_user_by_id user_id s).2.
Proof.
  intros Hc.
  destruct (_initialize_consistent s Hc) as (s1 & E & Hc1 & _).
  unfold get_user_by_id. erewrite bind_Return by exact E.
  unfold bind. rewrite users_find_one_run.
  destruct (List.find _ _); cbn; by apply (consistent_ext s1).
Qed.

Lemma get_user_consistent user_id s :
  consistent s → consistent (get_user user_id s).2.
Proof.
  intros Hc. apply consistent_UserRepository in Hc.
  pose proof (get_user_by_id_consistent user_id _ Hc) as H.
  unfold get_user, bind, get_user_repository.
  destruct (get_user_by_id user_id (UserRepository s)) as [[[u |] | e] s'];
    exact H.
Qed.

(** The data-model invariants hold in every state the service can reach
    from the empty store. *)
Lemma reachable_consistent s : reachable s → consistent s.
Proof.
  induction 1 as [e | payload s _ IH | user_id s _ IH | payload s _ IH
                 | user_id s _ IH].
  - apply consistent_initial.
  - destruct (create_user_creates_one payload s IH) as (r & s' & E & Hc & _).
    by rewrite E.
  - by apply get_user_consistent.
  - destruct (add_user_creates_one payload s IH) as (r & s' & E & Hc & _).
    by rewrite E.
  - by apply get_user_by_id_consistent.
Qed.

(** C6. On a consistent store, looking up an id that matches no stored
    user returns [None] and raises nothing, and the router turns that into
    the 404 response "User not found"; any record the lookup does return is
    the projection of a stored document, without its surrogate [_id]. *)
Theorem get_user_by_id_not_found user_id s :
  consistent s →
  user_id ∉ stored_ids (db s) →
  (∃ s', get_user_by_id user_id s = (Return None, s'))
  ∧ (∃ s', get_user user_id s = (Raise (HTTPException 404 "User not found"), s'))
  ∧ (∀ other u s', get_user_by_id other s = (Return (Some u), s') →
       ∃ doc, doc ∈ users (db s) ∧ id (body doc) = other
              ∧ u = mkUserOut (id (body doc)) (user_index (body doc)) (fields (body doc))).
Proof.
  intros Hc Hnot. split; [by apply get_user_by_id_missing |]. split.
  - destruct (get_user_by_id_missing user_id (UserRepository s)) as (s' & E);
      [by apply consistent_UserRepository | done |].
    exists s'. unfold get_user, bind, get_user_repository. by rewrite E.
  - intros other u s' E. by apply get_user_by_id_Some in E.
Qed.

(** C4. A user that [add_user] has just returned is found again under its
    [id]: the lookup, through the repository or through the router, yields a
    record equal to the one [add_user] returned. *)
Theorem created_user_is_found payload s u s' :
  consistent s →
  add_user payload s = (Return u, s') →
  (∃ s'', get_user_by_id (out_id u) s' = (Return (Some u), s''))
  ∧ (∃ s'', get_user (out_id u) s' = (Return u, s'')).
Proof.
  intros Hc E.
  destruct (add_user_consistent payload s Hc) as (r & s2 & E2 & Hc2 & _ & _ & Hr).
  rewrite E in E2. injection E2 as <- <-.
  destruct Hr as (_ & Hf & o & Hu).
  set (doc := mkUserDoc o (mkUserDB (out_id u) (out_user_index u) payload)).
  assert (UserOut_of (body doc) = u) as Hout by (destruct u; cbn in *; by subst).
  assert (doc ∈ users (db s')) as Hin
    by (rewrite Hu; apply elem_of_app; right; by apply list_elem_of_singleton).
  split.
  - destruct (get_user_by_id_found doc s' Hc2 Hin) as (s'' & E').
    rewrite Hout in E'. by exists s''.
  - destruct (get_user_by_id_found doc (UserRepository s')) as (s'' & E');
      [by apply consistent_UserRepository | done |].
    rewrite Hout in E'. exists s''.
    unfold get_user, bind, get_user_repository. cbn [id body doc] in E'.
    by rewrite E'.
Qed.

(** ** Creation *)

Lemma add_user_on_empty_store e payload :
  ∃ s', add_user payload (initial e)
        = (Return (mkUserOut (e 0%nat) 1 payload), s')
      ∧ consistent s' ∧ last_seq (db s') = 1.
Proof.
  pose proof (consistent_initial e) as Hc.
  destruct (_initialize_consistent _ Hc) as (s1 & E & Hc1 & F1 & I1 & I2).
  destruct (_initialize_Return _ _ E) as (U1 & C1 & En & Dr & _).
  destruct (add_user_consistent payload _ Hc) as (r & s' & E' & Hc' & _ & Hs & _).
  pose proof (add_user_run payload _ s1 E) as Hrun. cbv zeta in Hrun.
  assert (last_seq (db s1) = 0) as Hz by (unfold last_seq; by rewrite C1).
  rewrite Hz, En, Dr in Hrun. cbn [initial entropy drawn] in Hrun.
  rewrite violates_None_intro in Hrun; cycle 1.
  { by destruct Hc1. }
  { unfold stored_ids, counted. cbn. rewrite U1. cbn. apply not_elem_of_nil. }
  { unfold stored_indexes, counted. cbn. rewrite U1. cbn. apply not_elem_of_nil. }
  rewrite Hrun in E'. injection E' as <- <-.
  eexists. split; [exact Hrun |]. split; [done |].
  etrans; [exact Hs | reflexivity].
Qed.

(** C1. Served one after the other on a consistent store whose counter
    stands at k-1, N create requests are assigned k, k+1, ..., k+N-1 in order:
    the i-th returned user carries k+i, so when all N return their
    [user_index] values are exactly that range, without duplicates.  On an
    empty store the first create returns [user_index] 1 and the second
    create 2. *)
Theorem add_user_assigns_consecutive_indexes :
  (∀ s payloads, consistent s →
     ∃ rs s', serve add_user payloads s = (rs, s')
       ∧ length rs = length payloads
       ∧ last_seq (db s') = last_seq (db s) + Z.of_nat (length payloads)
       ∧ (∀ (i : nat) u, rs !! i = Some (Return u) →
            out_user_index u = last_seq (db s) + 1 + Z.of_nat i)
       ∧ (∀ us, rs = Return <$> us →
            out_user_index <$> us
            = seqZ (last_seq (db s) + 1) (Z.of_nat (length payloads))
            ∧ NoDup (out_user_index <$> us)))
  ∧ (∀ e p1 p2, ∃ u1 s1,
       add_user p1 (initial e) = (Return u1, s1)
       ∧ out_user_index u1 = 1 ∧ out_fields u1 = p1
       ∧ ∀ u2 s2, add_user p2 s1 = (Return u2, s2) → out_user_index u2 = 2).
Proof.
  split.
  - intros s payloads Hc.
    destruct (serve_creates add_user add_user_creates_one payloads s Hc)
      as (rs & s' & E & _ & Hlen & Hseq & Hrs).
    exists rs, s'. split; [done |]. split; [done |]. split; [done |]. split.
    + intros i u Hi. exact (Hrs i (Return u) Hi).
    + intros us Hus.
      pose proof (serve_all_returned add_user add_user_creates_one
                    payloads s rs s' us Hc E Hus) as Heq.
      split; [done |]. rewrite Heq. apply NoDup_seqZ.
  - intros e p1 p2.
    destruct (add_user_on_empty_store e p1) as (s1 & E1 & Hc1 & Hs1).
    do 2 eexists. split; [exact E1 |]. split; [done |]. split; [done |].
    intros u2 s2 E2.
    destruct (add_user_creates_one p2 s1 Hc1) as (r & s2' & E2' & _ & _ & Hr).
    rewrite E2 in E2'. injection E2' as <- <-. rewrite Hr, Hs1. done.
Qed.

(** C5. After any sequence of create requests on a consistent store, and so
    after any sequence from the empty store, no two stored users share an
    [id].  The repository does not check this itself: every [add_user]
    leaves the unique index on [id] in place, and [insert_one] refuses, with
    a duplicate-key error and without storing anything, every document whose
    [id] is already stored. *)
Theorem stored_ids_stay_unique :
  (∀ s payloads, consistent s →
     NoDup (stored_ids (db (serve add_user payloads s).2)))
  ∧ (∀ e payloads, NoDup (stored_ids (db (serve add_user payloads (initial e)).2)))
  ∧ (∀ s payload, consistent s →
       uniq_id ∈ users_indexes (db (add_user payload s).2))
  ∧ (∀ s document, uniq_id ∈ users_indexes (db s) →
       id document ∈ stored_ids (db s) →
       ∃ ix s', users_insert_one document s = (Raise (DuplicateKeyError ix), s')
                ∧ users (db s') = users (db s)).
Proof.
  assert (∀ s payloads, consistent s →
            NoDup (stored_ids (db (serve add_user payloads s).2))) as Hgen.
  { intros s payloads Hc.
    destruct (serve_creates add_user add_user_creates_one payloads s Hc)
      as (rs & s' & E & (_ & _ & Hid & _) & _).
    rewrite E. cbn [snd]. by apply unique_on_id. }
  split; [done |]. split; [| split].
  - intros e payloads. apply Hgen, consistent_initial.
  - intros s payload Hc.
    destruct (add_user_consistent payload s Hc)
      as (r & s' & E & (_ & Hflag & _) & Hf & _).
    rewrite E. cbn [snd]. by destruct (Hflag Hf).
  - intros s document Hix Hin.
    destruct (violates_id document (db s) Hix Hin) as (ix & V).
    rewrite users_insert_one_run, V. by do 2 eexists.
Qed.

(** ** The retry *)

Lemma add_user_calls (l : list Call) n tail :
  l = [] ∨ l = [CreateIndex USERS "id" true "uniq_id"]
  ∨ l = [CreateIndex USERS "id" true "uniq_id";
         CreateIndex USERS "user_index" true "uniq_user_index"] →
  inserted (l ++ counter_calls n ++ tail) = inserted tail
  ∧ increments (l ++ counter_calls n ++ tail)
    = FindOneAndUpdate COUNTERS "user_index" "seq" 1 :: increments tail.
Proof.
  intros [-> | [-> | ->]]; unfold counter_calls; case_bool_decide; done.
Qed.

(** [add_user] on a consistent store, with the initialization folded away:
    the two candidate documents are judged against the stored users. *)
Lemma add_user_run_consistent payload s :
  consistent s →
  let n := last_seq (db s) + 1 in
  let doc1 := mkUserDB (entropy s (drawn s)) n payload in
  let doc2 := mkUserDB (entropy s (S (drawn s))) n payload in
  ∃ d l, users d = users (db s)
    ∧ users_indexes d ⊆ [uniq_id; uniq_user_index]
    ∧ uniq_id ∈ users_indexes d ∧ uniq_user_index ∈ users_indexes d
    ∧ last_seq d = n
    ∧ inserted (l ++ [InsertOne USERS doc1; InsertOne USERS doc2]) = [doc1; doc2]
    ∧ increments (l ++ [InsertOne USERS doc1; InsertOne USERS doc2])
      = [FindOneAndUpdate COUNTERS "user_index" "seq" 1]
    ∧ add_user payload s =
      match violates doc1 d with
      | None =>
          (Return (UserOut_of doc1),
           mkState true (stored doc1 d) (calls s ++ l ++ [InsertOne USERS doc1])
                   (entropy s) (S (drawn s)))
      | Some _ =>
          match violates doc2 d with
          | None =>
              (Return (UserOut_of doc2),
               mkState true (stored doc2 d)
                 (calls s ++ l ++ [InsertOne USERS doc1; InsertOne USERS doc2])
                 (entropy s) (S (S (drawn s))))
          | Some ix =>
              (Raise (DuplicateKeyError (ix_name ix)),
               mkState true d
                 (calls s ++ l ++ [InsertOne USERS doc1; InsertOne USERS doc2])
                 (entropy s) (S (S (drawn s))))
          end
      end.
Proof.
  intros Hc n doc1 doc2.
  destruct (_initialize_consistent s Hc) as (s1 & E & (Hsub & _) & F1 & I1 & I2).
  destruct (_initialize_Return _ _ E) as (U1 & C1 & En & Dr & _ & l & Hl & _ & Hcases).
  assert (last_seq (db s1) = last_seq (db s)) as Hseq
    by (unfold last_seq; by rewrite C1).
  destruct (add_user_calls l n [InsertOne USERS doc1; InsertOne USERS doc2] Hcases)
    as [Hins Hinc].
  exists (counted (db s1)), (l ++ counter_calls n).
  split; [done |]. split; [done |]. split; [done |]. split; [done |].
  split; [unfold counted; rewrite last_seq_incremented; unfold n; lia |].
  rewrite <- !app_assoc. split; [done |]. split; [done |].
  rewrite (add_user_run payload s s1 E). cbv zeta.
  rewrite Hseq, En, Dr, F1, Hl. fold n. fold doc1. fold doc2.
  by rewrite <- !app_assoc.
Qed.

(** C3. When the id first generated is already stored, so that the first
    insert is refused, [add_user] draws one more id and inserts once more:
    exactly two inserts are issued, the second with the next token as [id]
    and the [user_index] of the first, and the counter is incremented once.
    If the second document is admitted it is stored and returned; if it is
    refused as well, the duplicate-key error leaves [add_user] and nothing is
    stored. *)
Theorem add_user_retries_once payload s :
  consistent s →
  let n := last_seq (db s) + 1 in
  let doc1 := mkUserDB (entropy s (drawn s)) n payload in
  let doc2 := mkUserDB (entropy s (S (drawn s))) n payload in
  id doc1 ∈ stored_ids (db s) →
  ∃ r s', add_user payload s = (r, s')
    ∧ inserted (issued s s') = [doc1; doc2]
    ∧ increments (issued s s') = [FindOneAndUpdate COUNTERS "user_index" "seq" 1]
    ∧ last_seq (db s') = n
    ∧ drawn s' = S (S (drawn s))
    ∧ (id doc2 ∉ stored_ids (db s) → n ∉ stored_indexes (db s) →
       r = Return (UserOut_of doc2)
       ∧ users (db s') = users (db s) ++ [mkUserDoc (fresh_oid (users (db s))) doc2])
    ∧ (id doc2 ∈ stored_ids (db s) ∨ n ∈ stored_indexes (db s) →
       (∃ ix, r = Raise (DuplicateKeyError ix)) ∧ users (db s') = users (db s)).
Proof.
  intros Hc n doc1 doc2 Hcoll.
  destruct (add_user_run_consistent payload s Hc)
    as (d & l & U & Hsub & I1 & I2 & Hseq & Hins & Hinc & Hrun).
  fold n doc1 doc2 in Hseq, Hins, Hinc, Hrun.
  assert (stored_ids d = stored_ids (db s)) as Hids by (unfold stored_ids; by rewrite U).
  assert (stored_indexes d = stored_indexes (db s)) as Hixs
    by (unfold stored_indexes; by rewrite U).
  destruct (violates_id doc1 d I1) as (ix1 & V1); [by rewrite Hids |].
  rewrite V1 in Hrun. rewrite Hrun.
  destruct (violates doc2 d) as [ix2 |] eqn:V2.
  - do 2 eexists. split; [done |]. erewrite issued_app by reflexivity.
    split; [done |]. split; [done |]. split; [done |]. split; [done |]. split.
    + intros N1 N2. rewrite violates_None_intro in V2; [done | done | |].
      * by rewrite Hids.
      * by rewrite Hixs.
    + intros _. split; [by eexists | done].
  - destruct (violates_None_elim doc2 d I1 I2 V2) as [N1 N2].
    rewrite Hids in N1. rewrite Hixs in N2.
    do 2 eexists. split; [done |]. erewrite issued_app by reflexivity.
    split; [done |]. split; [done |].
    split; [by unfold stored; cbn; unfold last_seq in *|].
    split; [done |]. split.
    + intros _ _. split; [done |]. unfold stored. cbn. by rewrite U.
    + by intros [? | ?].
Qed.

(** C9. When the first insert is refused because the assigned [user_index]
    is already stored, while the generated [id] is not, the retry changes
    the [id] only: the second document carries the same [user_index], is
    refused for it whatever its [id], and [add_user] raises the duplicate-key
    error; nothing is stored. *)
Theorem add_user_index_collision_is_fatal payload s :
  consistent s →
  let n := last_seq (db s) + 1 in
  let doc1 := mkUserDB (entropy s (drawn s)) n payload in
  let doc2 := mkUserDB (entropy s (S (drawn s))) n payload in
  id doc1 ∉ stored_ids (db s) →
  n ∈ stored_indexes (db s) →
  ∃ ix s', add_user payload s = (Raise (DuplicateKeyError (ix_name ix)), s')
    ∧ inserted (issued s s') = [doc1; doc2]
    ∧ user_index doc2 = user_index doc1
    ∧ violates doc1 (db s') = Some uniq_user_index
    ∧ violates doc2 (db s') = Some ix
    ∧ (id doc2 ∉ stored_ids (db s) → ix = uniq_user_index)
    ∧ users (db s') = users (db s)
    ∧ last_seq (db s') = n.
Proof.
  intros Hc n doc1 doc2 Hfresh Hcoll.
  destruct (add_user_run_consistent payload s Hc)
    as (d & l & U & Hsub & I1 & I2 & Hseq & Hins & Hinc & Hrun).
  fold n doc1 doc2 in Hseq, Hins, Hinc, Hrun.
  assert (stored_ids d = stored_ids (db s)) as Hids by (unfold stored_ids; by rewrite U).
  assert (stored_indexes d = stored_indexes (db s)) as Hixs
    by (unfold stored_indexes; by rewrite U).
  assert (∀ doc, user_index doc = n → id doc ∉ stored_ids (db s) →
            ∀ ix, violates doc d = Some ix → ix = uniq_user_index) as Hwhich.
  { intros doc Hn Hid ix V. apply violates_Some in V as (Hin & _ & Hc').
    apply Hsub, known_index_cases in Hin as [-> | ->]; [| done].
    apply field_id_elem in Hc'. cbn in Hc'. fold (stored_ids d) in Hc'.
    by rewrite Hids in Hc'. }
  destruct (violates_user_index doc1 d I2) as (ix1 & V1); [by rewrite Hixs |].
  destruct (violates_user_index doc2 d I2) as (ix2 & V2); [by rewrite Hixs |].
  rewrite V1, V2 in Hrun.
  exists ix2. eexists. split; [exact Hrun |]. cbn [db].
  erewrite issued_app by reflexivity.
  split; [done |]. split; [done |].
  split; [by rewrite V1, (Hwhich doc1 eq_refl Hfresh ix1 V1) |].
  split; [done |]. split; [| done].
  intros Hid2. by apply (Hwhich doc2).
Qed.

(** * Worked instances *)

(** The scenario of the specification, through the router: Ana is created
    with [user_index] 1 on the empty store, Bo with 2. *)
Example create_ana_then_bo :
  (serve create_user [ana; bo] (initial tokens)).1
  = [Return (mkUserOut "a1b2" 1 ana); Return (mkUserOut "c3d4" 2 bo)].
Proof. vm_compute. reflexivity. Qed.

Example get_unknown_user :
  (get_user "does-not-exist" (initial tokens)).1
  = Raise (HTTPException 404 "User not found").
Proof. vm_compute. reflexivity. Qed.

(** A store that already repeats an [id] is outside the data model: the
    unique index cannot be built and every operation raises. *)
Example duplicated_store_cannot_initialize :
  ¬ consistent duplicated
  ∧ (_initialize duplicated).1 = Raise (DuplicateKeyError "uniq_id")
  ∧ (get_user_by_id "does-not-exist" duplicated).1
    = Raise (DuplicateKeyError "uniq_id").
Proof. split; [by_evaluation |]. split; vm_compute; reflexivity. Qed.

(** Without the unique index nothing in [add_user] keeps ids apart. *)
Example unconstrained_store_repeats_ids :
  stored_ids (db (serve add_user [ana; bo] unconstrained).2) = ["a1b2"; "a1b2"].
Proof. vm_compute. reflexivity. Qed.

Lemma add_user_assigns_consecutive_indexes_witness :
  consistent (initial tokens)
  ∧ ∃ rs s', serve add_user [ana; bo; bo] (initial tokens) = (rs, s')
      ∧ ∀ us, rs = Return <$> us → out_user_index <$> us = [1; 2; 3].
Proof.
  assert (consistent (initial tokens)) as Hc by by_evaluation.
  split; [exact Hc |].
  destruct add_user_assigns_consecutive_indexes as [Hgen _].
  destruct (Hgen (initial tokens) [ana; bo; bo] Hc) as (rs & s' & E & _ & _ & _ & Hall).
  exists rs, s'. split; [exact E |].
  intros us Hus. destruct (Hall us Hus) as [Heq _]. exact Heq.
Defined.

Lemma _get_next_user_index_increments_witness :
  counters (db (initial tokens)) !! "user_index" = None
  ∧ ∃ s', _get_next_user_index (initial tokens) = (Return 1, s')
      ∧ counters (db s') !! "user_index" = Some {["seq" := 1]}.
Proof.
  assert (counters (db (initial tokens)) !! "user_index" = None) as Hnone
    by reflexivity.
  split; [exact Hnone |].
  destruct (_get_next_user_index_increments (initial tokens))
    as (n & s' & E & _ & _ & _ & Habsent & _).
  destruct (Habsent Hnone) as [Hdoc Hn].
  rewrite Hn in E. exists s'. split; [exact E | exact Hdoc].
Defined.

Lemma add_user_retries_once_witness :
  consistent two_created
  ∧ "c3d4" ∈ stored_ids (db two_created)
  ∧ ∃ s', add_user bo two_created = (Return (mkUserOut "e5f6" 3 bo), s')
      ∧ inserted (issued two_created s') = [mkUserDB "c3d4" 3 bo; mkUserDB "e5f6" 3 bo].
Proof.
  assert (consistent two_created) as Hc by by_evaluation.
  assert ("c3d4" ∈ stored_ids (db two_created)) as Hin by by_evaluation.
  split; [exact Hc |]. split; [exact Hin |].
  destruct (add_user_retries_once bo two_created Hc Hin)
    as (r & s' & E & Hins & _ & _ & _ & Hok & _).
  destruct Hok as [Hr _]; [by_evaluation | by_evaluation |].
  rewrite Hr in E. exists s'. split; [exact E | exact Hins].
Defined.

Lemma created_user_is_found_witness :
  consistent (initial tokens)
  ∧ add_user ana (initial tokens) = (Return (mkUserOut "a1b2" 1 ana), ana_created)
  ∧ ∃ s'', get_user_by_id "a1b2" ana_created
           = (Return (Some (mkUserOut "a1b2" 1 ana)), s'').
Proof.
  assert (consistent (initial tokens)) as Hc by by_evaluation.
  assert (add_user ana (initial tokens)
          = (Return (mkUserOut "a1b2" 1 ana), ana_created)) as E
    by (vm_compute; reflexivity).
  split; [exact Hc |]. split; [exact E |].
  exact (proj1 (created_user_is_found ana (initial tokens) _ _ Hc E)).
Defined.

Lemma stored_ids_stay_unique_witness :
  consistent two_created
  ∧ NoDup (stored_ids (db (serve add_user [bo; ana] two_created).2))
  ∧ uniq_id ∈ users_indexes (db (add_user bo two_created).2).
Proof.
  assert (consistent two_created) as Hc by by_evaluation.
  destruct stored_ids_stay_unique as (Hgen & _ & Hix & _).
  split; [exact Hc |].
  split; [exact (Hgen two_created [bo; ana] Hc) | exact (Hix two_created bo Hc)].
Defined.

Lemma get_user_by_id_not_found_witness :
  consistent ana_created
  ∧ ("does-not-exist" ∉ stored_ids (db ana_created))
  ∧ (∃ s', get_user_by_id "does-not-exist" ana_created = (Return None, s'))
  ∧ (∃ s', get_user "does-not-exist" ana_created
           = (Raise (HTTPException 404 "User not found"), s')).
Proof.
  assert (consistent ana_created) as Hc by by_evaluation.
  assert ("does-not-exist" ∉ stored_ids (db ana_created)) as Hnot by by_evaluation.
  destruct (get_user_by_id_not_found "does-not-exist" ana_created Hc Hnot)
    as (Hrepo & Hrouter & _).
  split; [exact Hc |]. split; [exact Hnot |]. split; [exact Hrepo | exact Hrouter].
Defined.

Lemma _initialize_idempotent_witness :
  consistent (initial tokens)
  ∧ (times 3 _initialize (initial tokens)).1 = Return ()
  ∧ issued (initial tokens) (times 3 _initialize (initial tokens)).2
    = [CreateIndex USERS "id" true "uniq_id";
       CreateIndex USERS "user_index" true "uniq_user_index"].
Proof.
  assert (consistent (initial tokens)) as Hc by by_evaluation.
  pose proof (_initialize_idempotent (initial tokens) 3) as H.
  destruct (times 3 _initialize (initial tokens)) as [r s'] eqn:E.
  destruct H as (_ & _ & _ & _ & Hr).
  split; [exact Hc |]. split; [exact (Hr Hc) |].
  apply (f_equal snd) in E. cbn [snd] in E. rewrite <- E.
  vm_compute. reflexivity.
Defined.

Lemma add_user_index_collision_is_fatal_witness :
  consistent counter_lost
  ∧ ("c3d4" ∉ stored_ids (db counter_lost))
  ∧ 1 ∈ stored_indexes (db counter_lost)
  ∧ ∃ s', add_user bo counter_lost
          = (Raise (DuplicateKeyError "uniq_user_index"), s')
      ∧ users (db s') = users (db counter_lost).
Proof.
  assert (consistent counter_lost) as Hc by by_evaluation.
  assert ("c3d4" ∉ stored_ids (db counter_lost)) as Hfresh by by_evaluation.
  assert (1 ∈ stored_indexes (db counter_lost)) as Hcoll by by_evaluation.
  destruct (add_user_index_collision_is_fatal bo counter_lost Hc Hfresh Hcoll)
    as (ix & s' & E & _ & _ & _ & _ & Hix & Hu & _).
  rewrite Hix in E by by_evaluation.
  split; [exact Hc |]. split; [exact Hfresh |]. split; [exact Hcoll |].
  exists s'. split; [exact E | exact Hu].
Defined.

Lemma get_user_by_id_frame_witness :
  _initialized ana_created = true
  ∧ db (get_user_by_id "a1b2" ana_created).2 = db ana_created.
Proof.
  assert (_initialized ana_created = true) as Hf by reflexivity.
  pose proof (get_user_by_id_frame "a1b2" ana_created) as H.
  destruct (get_user_by_id "a1b2" ana_created) as [r s'].
  destruct H as (_ & _ & _ & Hdb & _).
  split; [exact Hf | exact (Hdb Hf)].
Defined.

(** * Further properties of the repository and the router *)

(** ** What a create stores *)

Lemma add_user_users payload s :
  let '(r, s') := add_user payload s in
  match r with
  | Return u =>
      users (db s') = users (db s)
        ++ [mkUserDoc (fresh_oid (users (db s)))
                      (mkUserDB (out_id u) (out_user_index u) payload)]
      ∧ out_fields u = payload
      ∧ (out_id u = entropy s (drawn s) ∨ out_id u = entropy s (S (drawn s)))
  | Raise _ => users (db s') = users (db s)
  end.
Proof.
  pose proof (_initialize_frame s) as Hfr.
  destruct (_initialize s) as [[[] | e] s1] eqn:E.
  - destruct (_initialize_Return _ _ E) as (U1 & _ & En & Dr & _).
    rewrite (add_user_run payload s s1 E). cbv zeta.
    destruct (violates _ (counted (db s1))) as [ix1 |];
      [destruct (violates _ (counted (db s1))) as [ix2 |] |];
      cbn; rewrite ?U1, ?En, ?Dr; auto.
  - unfold add_user. erewrite bind_Raise by exact E.
    by destruct Hfr as (U1 & _).
Qed.

(** X1. Whatever the state, [add_user] never alters or removes a stored
    document.  When it returns, exactly one document has been appended: it
    carries the payload's fields unchanged, the returned [user_index] and an
    [id] that is the next or the next-but-one generated token.  When it
    raises, the collection is as it was. *)
Theorem add_user_appends_one payload s :
  let '(r, s') := add_user payload s in
  match r with
  | Return u =>
      users (db s') = users (db s)
        ++ [mkUserDoc (fresh_oid (users (db s)))
                      (mkUserDB (out_id u) (out_user_index u) payload)]
      ∧ out_fields u = payload
      ∧ (out_id u = entropy s (drawn s) ∨ out_id u = entropy s (S (drawn s)))
  | Raise _ => users (db s') = users (db s)
  end.
Proof. exact (add_user_users payload s). Qed.

(** ** Initialization on a new instance *)

(** A new instance whose [_initialize] returns has asked the store for both
    indexes, in order, and both are in place afterwards. *)
Lemma _initialize_fresh s s1 :
  _initialized s = false →
  _initialize s = (Return (), s1) →
  calls s1 = calls s ++ index_creations
  ∧ uniq_id ∈ users_indexes (db s1)
  ∧ uniq_user_index ∈ users_indexes (db s1).
Proof.
  intros Hf. unfold _initialize. rewrite Hf.
  unfold bind, users_create_index, index_creations.
  repeat (case_match; simplify_eq/=); intros; simplify_eq/=;
    repeat match goal with
           | H : bool_decide _ = true |- _ => apply bool_decide_eq_true in H
           end;
    (split; [by rewrite <- app_assoc |]);
    unfold uniq_id, uniq_user_index;
    rewrite ?elem_of_app, ?list_elem_of_singleton in *; tauto.
Qed.

(** X7. When [_initialize] raises, the instance stays uninitialized and no
    document has changed, the public operations raise the same exception
    before they draw an id, touch the counter or read a user, and the next
    call starts over with the creation of the index on [id]. *)
Theorem failed_initialize_is_not_remembered payload user_id s e s1 :
  _initialize s = (Raise e, s1) →
  _initialized s1 = false
  ∧ users (db s1) = users (db s) ∧ counters (db s1) = counters (db s)
  ∧ add_user payload s = (Raise e, s1)
  ∧ get_user_by_id user_id s = (Raise e, s1)
  ∧ head (issued s1 (_initialize s1).2) = Some (CreateIndex USERS "id" true "uniq_id").
Proof.
  intros E.
  assert (_initialized s1 = false ∧ users (db s1) = users (db s)
          ∧ counters (db s1) = counters (db s)) as (Hf & HU & HC).
  { revert E. unfold _initialize. destruct (_initialized s) eqn:Hf; [done |].
    unfold bind, users_create_index.
    repeat (case_match; simplify_eq/=); intros; simplify_eq/=; done. }
  split; [done |]. split; [done |]. split; [done |].
  split; [unfold add_user; by erewrite bind_Raise by exact E |].
  split; [unfold get_user_by_id; by erewrite bind_Raise by exact E |].
  unfold _initialize. rewrite Hf. unfold bind, users_create_index.
  repeat (case_match; simplify_eq/=);
    (erewrite issued_app by (cbn; rewrite <- ?app_assoc; reflexivity)); done.
Qed.

(** ** Requests through the router *)

Lemma get_user_found user_id s u s' :
  get_user_by_id user_id (UserRepository s) = (Return (Some u), s') →
  get_user user_id s = (Return u, s').
Proof. intros E. unfold get_user, bind, get_user_repository. by rewrite E. Qed.


(** X2. Every request through the router builds its own repository instance,
    so a create that returns has passed both unique indexes, whatever the
    store held before: the returned [id] and [user_index] were stored for no
    other user, the [user_index] is the counter's next value, and both
    indexes are in place afterwards. *)
Theorem create_user_respects_uniqueness payload s u s' :
  create_user payload s = (Return u, s') →
  (out_id u ∉ stored_ids (db s))
  ∧ (out_user_index u ∉ stored_indexes (db s))
  ∧ out_user_index u = last_seq (db s) + 1
  ∧ uniq_id ∈ users_indexes (db s')
  ∧ uniq_user_index ∈ users_indexes (db s').
Proof.
  rewrite create_user_add_user. set (s0 := UserRepository s).
  destruct (_initialize s0) as [[[] | e] s1] eqn:E; cycle 1.
  { unfold add_user. by erewrite bind_Raise by exact E. }
  destruct (_initialize_fresh s0 s1 eq_refl E) as (_ & I1 & I2).
  destruct (_initialize_Return _ _ E) as (U1 & C1 & _).
  assert (last_seq (db s1) = last_seq (db s)) as Hseq
    by (unfold last_seq; by rewrite C1).
  rewrite (add_user_run payload s0 s1 E). cbv zeta. rewrite Hseq.
  set (d := counted (db s1)).
  assert (stored_ids d = stored_ids (db s)) as Hids
    by (unfold stored_ids; cbn; by rewrite U1).
  assert (stored_indexes d = stored_indexes (db s)) as Hixs
    by (unfold stored_indexes; cbn; by rewrite U1).
  set (doc1 := mkUserDB (entropy s1 (drawn s1)) (last_seq (db s) + 1) payload).
  set (doc2 := mkUserDB (entropy s1 (S (drawn s1))) (last_seq (db s) + 1) payload).
  destruct (violates doc1 d) as [ix1 |] eqn:V1;
    [destruct (violates doc2 d) as [ix2 |] eqn:V2; [done |] |];
    intros [= <- <-]; cbn [db UserOut_of out_id out_user_index stored users_indexes].
  - destruct (violates_None_elim doc2 d I1 I2 V2) as [N1 N2].
    rewrite Hids in N1. rewrite Hixs in N2. by repeat split.
  - destruct (violates_None_elim doc1 d I1 I2 V1) as [N1 N2].
    rewrite Hids in N1. rewrite Hixs in N2. by repeat split.
Qed.

(** X3. On a consistent store, every request through the router asks the store
    for both indexes again before anything else, because its repository
    instance is new; a call on an instance that is already initialized asks
    for none. *)
Theorem router_requests_reinitialize payload user_id s :
  consistent s →
  issued s (get_user user_id s).2 = index_creations ++ [FindOne USERS user_id]
  ∧ take 2 (issued s (create_user payload s).2) = index_creations
  ∧ (_initialized s = true →
     issued s (get_user_by_id user_id s).2 = [FindOne USERS user_id]).
Proof.
  intros Hc.
  pose proof (consistent_UserRepository s Hc) as Hc0.
  destruct (_initialize_consistent _ Hc0) as (s1 & E & _).
  destruct (_initialize_fresh (UserRepository s) s1 eq_refl E) as (Hcalls & _).
  cbn in Hcalls.
  split; [| split].
  - unfold get_user, bind, get_user_repository, get_user_by_id, bind.
    rewrite E, users_find_one_run.
    destruct (List.find _ _); cbn;
      (erewrite issued_app by (rewrite Hcalls, <- app_assoc; reflexivity)); done.
  - rewrite create_user_add_user, (add_user_run payload _ s1 E). cbv zeta.
    destruct (violates _ _); [destruct (violates _ _) |]; cbn [snd];
      (erewrite issued_app
         by (cbn [calls]; rewrite Hcalls, <- app_assoc; reflexivity)); done.
  - intros Hf. unfold get_user_by_id.
    erewrite bind_Return by (by apply _initialize_done).
    unfold bind. rewrite users_find_one_run.
    destruct (List.find _ _); cbn; by erewrite issued_app by reflexivity.
Qed.


(** ** Stored users stay as they are *)

Lemma add_user_keeps_documents payload s doc :
  doc ∈ users (db s) → doc ∈ users (db (add_user payload s).2).
Proof.
  intros Hin. pose proof (add_user_users payload s) as H.
  destruct (add_user payload s) as [[u | e] s']; cbn [snd].
  - destruct H as (-> & _). apply elem_of_app. by left.
  - by rewrite H.
Qed.

Lemma serve_create_user_keeps payloads : ∀ s doc,
  consistent s →
  doc ∈ users (db s) →
  consistent (serve create_user payloads s).2
  ∧ doc ∈ users (db (serve create_user payloads s).2).
Proof.
  induction payloads as [| p ps IH]; intros s doc Hc Hin; [done |].
  cbn [serve].
  destruct (create_user_creates_one p s Hc) as (r & s1 & E & Hc1 & _).
  pose proof (add_user_keeps_documents p (UserRepository s) doc Hin) as Hin1.
  rewrite <- create_user_add_user, E in Hin1. rewrite E.
  specialize (IH s1 doc Hc1 Hin1).
  by destruct (serve create_user ps s1).
Qed.

(** X5. A stored user outlives every later create: after any sequence of create
    requests through the router, returned or raised, the router's lookup
    under its id still returns the same record. *)
Theorem stored_user_stays_found payloads s doc :
  consistent s →
  doc ∈ users (db s) →
  (∃ s', get_user (id (body doc)) s = (Return (UserOut_of (body doc)), s'))
  ∧ ∃ s', get_user (id (body doc)) (serve create_user payloads s).2
          = (Return (UserOut_of (body doc)), s').
Proof.
  intros Hc Hin.
  assert (∀ t, consistent t → doc ∈ users (db t) →
            ∃ s', get_user (id (body doc)) t
                  = (Return (UserOut_of (body doc)), s')) as Hfound.
  { intros t Hct Hint.
    destruct (get_user_by_id_found doc (UserRepository t)) as (s' & E);
      [by apply consistent_UserRepository | done |].
    exists s'. by apply get_user_found. }
  split; [by apply Hfound |].
  destruct (serve_create_user_keeps payloads s doc Hc Hin) as [Hc' Hin'].
  by apply Hfound.
Qed.

(** X6. A lookup that returned can be repeated on the same instance: the second
    call returns the same answer, leaves the database as it is and asks the
    store for no index. *)
Theorem get_user_by_id_repeatable user_id s r s1 :
  get_user_by_id user_id s = (Return r, s1) →
  ∃ s2, get_user_by_id user_id s1 = (Return r, s2)
    ∧ db s2 = db s1
    ∧ issued s1 s2 = [FindOne USERS user_id].
Proof.
  unfold get_user_by_id at 1. unfold bind.
  destruct (_initialize s) as [[[] | e] s0] eqn:E; [| done].
  destruct (_initialize_Return _ _ E) as (_ & _ & _ & _ & Hf & _).
  rewrite users_find_one_run.
  set (found := List.find _ _).
  assert (∀ t, _initialized t = true → users (db t) = users (db s0) →
            get_user_by_id user_id t
            = (match found with
               | Some d => Return (Some (UserOut_of d.(body)))
               | None => Return None
               end,
               mkState (_initialized t) (db t) (calls t ++ [FindOne USERS user_id])
                       (entropy t) (drawn t))) as Hrun.
  { intros t Ht Hu. unfold get_user_by_id.
    erewrite bind_Return by (by apply _initialize_done).
    unfold bind. rewrite users_find_one_run, Hu. fold found.
    by destruct found. }
  destruct found as [d |]; cbn; intros [= <- <-];
    (eexists; split; [by apply Hrun |]);
    (split; [done | by erewrite issued_app by reflexivity]).
Qed.

(** ** Creation order *)

Lemma in_order_step s s' :
  in_order s →
  (last_seq (db s) ≤ last_seq (db s'))%Z →
  (users (db s') = users (db s)
   ∨ (last_seq (db s') = last_seq (db s) + 1
      ∧ ∃ o i p, users (db s') = users (db s)
                    ++ [mkUserDoc o (mkUserDB i (last_seq (db s) + 1) p)])) →
  in_order s'.
Proof.
  intros (Hs & Hb & H0) Hle Hu. unfold in_order, stored_indexes in *.
  destruct Hu as [-> | (Hseq & o & i & p & ->)].
  - split; [done |]. split; [| lia].
    eapply Forall_impl; [exact Hb |]. cbn. intros. lia.
  - rewrite fmap_app. cbn. split; [| split; [| lia]].
    + apply StronglySorted_app_2; [| done | repeat constructor].
      intros x1 x2 H1 ->%list_elem_of_singleton.
      rewrite Forall_forall in Hb. specialize (Hb x1 H1). cbn in Hb. lia.
    + apply Forall_app. split.
      * eapply Forall_impl; [exact Hb |]. cbn. intros. lia.
      * apply Forall_singleton. lia.
Qed.

Lemma add_user_in_order payload s : in_order s → in_order (add_user payload s).2.
Proof.
  intros Ho. pose proof (_initialize_frame s) as Hfr.
  destruct (_initialize s) as [[[] | e] s1] eqn:E.
  - destruct (_initialize_Return _ _ E) as (U1 & C1 & _).
    assert (last_seq (db s1) = last_seq (db s)) as Hseq
      by (unfold last_seq; by rewrite C1).
    assert (last_seq (counted (db s1)) = last_seq (db s) + 1) as Hd
      by (unfold counted; rewrite last_seq_incremented; lia).
    rewrite (add_user_run payload s s1 E). cbv zeta. rewrite Hseq.
    destruct (violates _ (counted (db s1))) as [ix1 |];
      [destruct (violates _ (counted (db s1))) as [ix2 |] |];
      cbn [snd]; apply (in_order_step s); try done; cbn [db];
      try (unfold stored, last_seq in *; cbn in *; lia).
    + left. cbn. done.
    + right. split; [unfold stored, last_seq in *; cbn in *; lia |].
      do 3 eexists. cbn. by rewrite U1.
    + right. split; [unfold stored, last_seq in *; cbn in *; lia |].
      do 3 eexists. cbn. by rewrite U1.
  - unfold add_user. erewrite bind_Raise by exact E. cbn [snd].
    destruct Hfr as (U1 & C1 & _).
    apply (in_order_step s); [done | unfold last_seq; rewrite C1; lia | by left].
Qed.

Lemma get_user_by_id_documents user_id s :
  users (db (get_user_by_id user_id s).2) = users (db s)
  ∧ counters (db (get_user_by_id user_id s).2) = counters (db s).
Proof.
  unfold get_user_by_id, bind. pose proof (_initialize_frame s) as Hfr.
  destruct (_initialize s) as [[[] | e] s1]; destruct Hfr as (U1 & C1 & _).
  - rewrite users_find_one_run. by destruct (List.find _ _).
  - done.
Qed.

Lemma get_user_by_id_in_order user_id s :
  in_order s → in_order (get_user_by_id user_id s).2.
Proof.
  intros Ho. destruct (get_user_by_id_documents user_id s) as [U C].
  apply (in_order_step s); [done | unfold last_seq; rewrite C; lia | by left].
Qed.

Lemma get_user_state user_id s :
  (get_user user_id s).2 = (get_user_by_id user_id (UserRepository s)).2.
Proof.
  unfold get_user, bind, get_user_repository.
  by destruct (get_user_by_id user_id (UserRepository s)) as [[[u |] | e] s'].
Qed.

Lemma in_order_UserRepository s : in_order s → in_order (UserRepository s).
Proof. intros Ho. apply (in_order_step s); [done | cbn; lia | by left]. Qed.

Lemma reachable_in_order s : reachable s → in_order s.
Proof.
  induction 1 as [e | payload s _ IH | user_id s _ IH | payload s _ IH
                 | user_id s _ IH].
  - unfold in_order, stored_indexes, initial. cbn.
    split; [constructor |]. split; [constructor | done].
  - rewrite create_user_add_user. by apply add_user_in_order, in_order_UserRepository.
  - rewrite get_user_state.
    by apply get_user_by_id_in_order, in_order_UserRepository.
  - by apply add_user_in_order.
  - by apply get_user_by_id_in_order.
Qed.

(** X8. In every state the service can reach from the empty store, the stored
    users carry strictly increasing [user_index] values in the order they
    were stored, each between 1 and the last value the counter issued. *)
Theorem user_index_follows_creation_order s :
  reachable s →
  StronglySorted Z.lt (stored_indexes (db s))
  ∧ Forall (fun i : Z => (1 ≤ i ≤ last_seq (db s))%Z) (stored_indexes (db s))
  ∧ NoDup (stored_indexes (db s)).
Proof.
  intros Hr. destruct (reachable_in_order s Hr) as (Hs & Hb & _).
  split; [done |]. split; [done |].
  destruct (reachable_consistent s Hr) as (_ & _ & _ & Hu).
  by apply unique_on_user_index.
Qed.

(** X9. In every reachable state a create returns exactly when the next or the
    next-but-one generated id is not yet stored: the assigned [user_index]
    is always new there, so two id collisions in a row are the only way
    [add_user] can fail. *)
Theorem add_user_returns_iff_an_id_is_new payload s :
  reachable s →
  (∃ u s', add_user payload s = (Return u, s'))
  ↔ (entropy s (drawn s) ∉ stored_ids (db s)
     ∨ entropy s (S (drawn s)) ∉ stored_ids (db s)).
Proof.
  intros Hr. pose proof (reachable_consistent s Hr) as Hc.
  destruct (reachable_in_order s Hr) as (_ & Hb & _).
  destruct (add_user_run_consistent payload s Hc)
    as (d & l & U & Hsub & I1 & I2 & _ & _ & _ & Hrun).
  cbv zeta in Hrun.
  assert (stored_ids d = stored_ids (db s)) as Hids by (unfold stored_ids; by rewrite U).
  assert (last_seq (db s) + 1 ∉ stored_indexes d) as Hnew.
  { unfold stored_indexes. rewrite U. intros Hin.
    rewrite Forall_forall in Hb. specialize (Hb _ Hin). cbn in Hb. lia. }
  set (doc1 := mkUserDB (entropy s (drawn s)) (last_seq (db s) + 1) payload) in *.
  set (doc2 := mkUserDB (entropy s (S (drawn s))) (last_seq (db s) + 1) payload) in *.
  assert (∀ doc, user_index doc = last_seq (db s) + 1 →
            (violates doc d = None ↔ id doc ∉ stored_ids (db s))) as Hviol.
  { intros doc Hn. rewrite <- Hids. split.
    - intros V. by destruct (violates_None_elim doc d I1 I2 V).
    - intros Hid. apply violates_None_intro; [done | done | by rewrite Hn]. }
  assert (violates doc1 d = None ↔ entropy s (drawn s) ∉ stored_ids (db s))
    as Hv1 by exact (Hviol doc1 eq_refl).
  assert (violates doc2 d = None ↔ entropy s (S (drawn s)) ∉ stored_ids (db s))
    as Hv2 by exact (Hviol doc2 eq_refl).
  rewrite Hrun, <- Hv1, <- Hv2.
  destruct (violates doc1 d) as [ix1 |]; [destruct (violates doc2 d) as [ix2 |] |].
  - split; [by intros (u & s' & ?) | by intros [? | ?]].
  - split; [by right | intros _; by do 2 eexists].
  - split; [by left | intros _; by do 2 eexists].
Qed.

(** ** The counter in a row *)

Lemma next_user_indexes_run n : ∀ s,
  (next_user_indexes n s).1 = Return <$> seqZ (last_seq (db s) + 1) (Z.of_nat n)
  ∧ last_seq (db (next_user_indexes n s).2) = last_seq (db s) + Z.of_nat n
  ∧ users (db (next_user_indexes n s).2) = users (db s)
  ∧ users_indexes (db (next_user_indexes n s).2) = users_indexes (db s).
Proof.
  unfold next_user_indexes.
  induction n as [| n IH]; intros s.
  - cbn. repeat split; try done. lia.
  - cbn [replicate serve]. rewrite _get_next_user_index_run.
    match goal with
    | |- context [serve _ _ ?t] => specialize (IH t); set (s1 := t) in *
    end.
    destruct (serve _ (replicate n ()) s1) as [rs s2]. cbn [fst snd] in *.
    destruct IH as (Hrs & Hseq & HU & HI).
    assert (last_seq (db s1) = last_seq (db s) + 1) as H1
      by (unfold s1; cbn [db]; apply last_seq_incremented).
    rewrite H1 in Hrs, Hseq.
    split; [| split; [lia | split; [by rewrite HU | by rewrite HI]]].
    rewrite (seqZ_cons _ (Z.of_nat (S n))) by lia.
    rewrite fmap_cons, Hrs. do 3 f_equal; lia.
Qed.

(** X11. Called [n] times in a row, whatever the store holds,
    [_get_next_user_index] returns the [n] consecutive values that follow
    the last one issued, so no value comes twice; the counter ends [n]
    higher and the [users] collection and its indexes are untouched. *)
Theorem _get_next_user_index_consecutive n s :
  (next_user_indexes n s).1 = Return <$> seqZ (last_seq (db s) + 1) (Z.of_nat n)
  ∧ last_seq (db (next_user_indexes n s).2) = last_seq (db s) + Z.of_nat n
  ∧ users (db (next_user_indexes n s).2) = users (db s)
  ∧ users_indexes (db (next_user_indexes n s).2) = users_indexes (db s).
Proof. exact (next_user_indexes_run n s). Qed.

(** ** Settings *)

Lemma lower_ascii_t c : lower_ascii c = "t"%char ↔ c = "t"%char ∨ c = "T"%char.
Proof.
  destruct c as [[] [] [] [] [] [] [] []]; vm_compute;
    (split; [intros [=]; auto | intros [[=] | [=]]; auto]).
Qed.

Lemma lower_ascii_r c : lower_ascii c = "r"%char ↔ c = "r"%char ∨ c = "R"%char.
Proof.
  destruct c as [[] [] [] [] [] [] [] []]; vm_compute;
    (split; [intros [=]; auto | intros [[=] | [=]]; auto]).
Qed.

Lemma lower_ascii_u c : lower_ascii c = "u"%char ↔ c = "u"%char ∨ c = "U"%char.
Proof.
  destruct c as [[] [] [] [] [] [] [] []]; vm_compute;
    (split; [intros [=]; auto | intros [[=] | [=]]; auto]).
Qed.

Lemma lower_ascii_e c : lower_ascii c = "e"%char ↔ c = "e"%char ∨ c = "E"%char.
Proof.
  destruct c as [[] [] [] [] [] [] [] []]; vm_compute;
    (split; [intros [=]; auto | intros [[=] | [=]]; auto]).
Qed.

(** X14. Debug mode is on exactly when [DEBUG_MODE] is unset or spells "true" in
    any mix of upper and lower case; every other value, "1" and "yes"
    included, turns it off. *)
Theorem debug_mode_spelling environ :
  debug_mode (settings environ) = true
  ↔ (getenv environ "DEBUG_MODE" = None
     ∨ ∃ c1 c2 c3 c4,
         getenv environ "DEBUG_MODE"
         = Some (String c1 (String c2 (String c3 (String c4 EmptyString))))
         ∧ (c1 = "t" ∨ c1 = "T")%char ∧ (c2 = "r" ∨ c2 = "R")%char
         ∧ (c3 = "u" ∨ c3 = "U")%char ∧ (c4 = "e" ∨ c4 = "E")%char).
Proof.
  unfold settings. cbn [debug_mode]. rewrite bool_decide_eq_true.
  destruct (getenv environ "DEBUG_MODE") as [v |]; cbn [default]; cycle 1.
  { split; [by left | done]. }
  split.
  - intros H. right.
    destruct v as [| c1 [| c2 [| c3 [| c4 [| c5 v]]]]]; try discriminate H.
    cbn in H. injection H as H1 H2 H3 H4.
    exists c1, c2, c3, c4. split; [done |].
    by rewrite <- lower_ascii_t, <- lower_ascii_r, <- lower_ascii_u, <- lower_ascii_e.
  - intros [[=] | (c1 & c2 & c3 & c4 & [= ->] & H1 & H2 & H3 & H4)].
    apply lower_ascii_t in H1. apply lower_ascii_r in H2.
    apply lower_ascii_u in H3. apply lower_ascii_e in H4.
    cbn. by rewrite H1, H2, H3, H4.
Qed.

(** ** Runs of create requests, whatever the store *)

Lemma serve_create_user_documents payloads : ∀ s,
  (UserOut_of ∘ body) <$> users (db (serve create_user payloads s).2)
  = ((UserOut_of ∘ body) <$> users (db s))
    ++ returned (serve create_user payloads s).1.
Proof.
  induction payloads as [| p ps IH]; intros s.
  - cbn. by rewrite app_nil_r.
  - cbn [serve]. pose proof (add_user_users p (UserRepository s)) as H.
    rewrite <- create_user_add_user in H.
    destruct (create_user p s) as [r s1]. specialize (IH s1).
    destruct (serve create_user ps s1) as [rs s2]. cbn [fst snd] in *.
    rewrite IH. destruct r as [u | e].
    + destruct H as (-> & Hf & _). rewrite fmap_app, <- app_assoc. cbn.
      do 2 f_equal. destruct u. cbn in *. by subst.
    + cbn in H. by rewrite H.
Qed.

(** X12. After any run of create requests through the router, on any store, the
    [users] collection holds what it held before followed by exactly the
    returned users, in the order of the requests: every returned create has
    stored its record, and a create that raised has stored nothing. *)
Theorem responses_are_the_new_documents payloads s :
  (UserOut_of ∘ body) <$> users (db (serve create_user payloads s).2)
  = ((UserOut_of ∘ body) <$> users (db s))
    ++ returned (serve create_user payloads s).1.
Proof. exact (serve_create_user_documents payloads s). Qed.

(** X13. On a consistent store no two responses of a run of create requests
    carry the same [id] or the same [user_index], and none repeats an [id]
    that was stored before the run. *)
Theorem responses_carry_distinct_ids payloads s :
  consistent s →
  NoDup (out_id <$> returned (serve create_user payloads s).1)
  ∧ NoDup (out_user_index <$> returned (serve create_user payloads s).1)
  ∧ ∀ u, u ∈ returned (serve create_user payloads s).1 →
         out_id u ∉ stored_ids (db s).
Proof.
  intros Hc.
  destruct (serve_creates create_user create_user_creates_one payloads s Hc)
    as (rs & s' & E & (_ & _ & Hid & Hix) & _).
  pose proof (serve_create_user_documents payloads s) as Hdocs.
  rewrite E in *. cbn [fst snd] in *.
  apply unique_on_id in Hid. apply unique_on_user_index in Hix.
  assert (∀ t, (id ∘ body) <$> users (db t)
               = out_id <$> ((UserOut_of ∘ body) <$> users (db t))) as Hi
    by (intros t; by rewrite <- list_fmap_compose).
  assert (∀ t, (user_index ∘ body) <$> users (db t)
               = out_user_index <$> ((UserOut_of ∘ body) <$> users (db t))) as Hx
    by (intros t; by rewrite <- list_fmap_compose).
  rewrite Hi, Hdocs, fmap_app in Hid. rewrite Hx, Hdocs, fmap_app in Hix.
  apply NoDup_app in Hid as (_ & Hdisj & Hnew).
  apply NoDup_app in Hix as (_ & _ & Hnewx).
  split; [done |]. split; [done |].
  intros u Hu Hin. unfold stored_ids in Hin. rewrite Hi in Hin.
  apply (Hdisj (out_id u) Hin). apply list_elem_of_fmap. by exists u.
Qed.

(** ** The gap a failed create leaves *)

Lemma add_user_step payload s :
  (last_seq (db s) ≤ last_seq (db (add_user payload s).2))%Z
  ∧ stored_indexes (db (add_user payload s).2)
    `sublist_of` stored_indexes (db s) ++ [last_seq (db s) + 1].
Proof.
  pose proof (_initialize_frame s) as Hfr. unfold stored_indexes.
  destruct (_initialize s) as [[[] | e] s1] eqn:E.
  - destruct (_initialize_Return _ _ E) as (U1 & C1 & _).
    assert (last_seq (db s1) = last_seq (db s)) as Hseq
      by (unfold last_seq; by rewrite C1).
    assert (last_seq (counted (db s1)) = last_seq (db s) + 1) as Hd
      by (unfold counted; rewrite last_seq_incremented; lia).
    rewrite (add_user_run payload s s1 E). cbv zeta. rewrite Hseq.
    destruct (violates _ (counted (db s1))) as [ix1 |];
      [destruct (violates _ (counted (db s1))) as [ix2 |] |];
      cbn [snd db stored users]; (split; [unfold last_seq in *; cbn in *; lia |]);
      cbn [counted users]; rewrite ?fmap_app, U1; cbn;
      [by apply sublist_inserts_r | done | done].
  - unfold add_user. erewrite bind_Raise by exact E. cbn [snd].
    destruct Hfr as (U1 & C1 & _). rewrite U1. split.
    + unfold last_seq. rewrite C1. lia.
    + by apply sublist_inserts_r.
Qed.

Lemma serve_create_user_skips payloads : ∀ s n,
  (n ≤ last_seq (db s))%Z →
  n ∉ stored_indexes (db s) →
  n ∉ stored_indexes (db (serve create_user payloads s).2).
Proof.
  induction payloads as [| p ps IH]; intros s n Hle Hnot; [done |].
  cbn [serve]. destruct (add_user_step p (UserRepository s)) as [Hmono Hsub].
  rewrite <- create_user_add_user in Hmono, Hsub.
  destruct (create_user p s) as [r s1]. cbn [snd] in *.
  specialize (IH s1 n).
  destruct (serve create_user ps s1) as [rs s2]. cbn [snd] in *.
  apply IH; [cbn in Hmono; lia |].
  intros Hin. apply (fun H => elem_of_sublist _ _ _ H Hsub) in Hin.
  apply elem_of_app in Hin as [Hin | Hin%list_elem_of_singleton]; [done |].
  cbn in Hin. lia.
Qed.

(** X10. A create that raises in a reachable state has still used up a counter
    value: the counter stands one higher, and whatever creates follow, no
    stored user ever carries the value that was skipped. *)
Theorem failed_create_leaves_a_gap payload payloads s e s1 :
  reachable s →
  add_user payload s = (Raise e, s1) →
  last_seq (db s1) = last_seq (db s) + 1
  ∧ last_seq (db s) + 1 ∉ stored_indexes (db (serve create_user payloads s1).2).
Proof.
  intros Hr E. pose proof (reachable_consistent s Hr) as Hc.
  destruct (reachable_in_order s Hr) as (_ & Hb & _).
  destruct (add_user_consistent payload s Hc) as (r & s' & E' & _ & _ & Hseq & Hres).
  rewrite E in E'. injection E' as <- <-. destruct Hres as [_ HU].
  split; [done |].
  apply serve_create_user_skips; [lia |].
  unfold stored_indexes. rewrite HU. intros Hin.
  rewrite Forall_forall in Hb. specialize (Hb _ Hin). cbn in Hb. lia.
Qed.

(** ** Worked instances of the further properties *)

Lemma create_user_respects_uniqueness_witness :
  create_user ana (initial tokens)
  = (Return (mkUserOut "a1b2" 1 ana), (create_user ana (initial tokens)).2)
  ∧ ("a1b2" ∉ stored_ids (db (initial tokens)))
  ∧ uniq_id ∈ users_indexes (db (create_user ana (initial tokens)).2).
Proof.
  assert (create_user ana (initial tokens)
          = (Return (mkUserOut "a1b2" 1 ana), (create_user ana (initial tokens)).2))
    as E by (vm_compute; reflexivity).
  destruct (create_user_respects_uniqueness _ _ _ _ E) as (Hid & _ & _ & Hix & _).
  split; [exact E |]. split; [exact Hid | exact Hix].
Defined.

Lemma router_requests_reinitialize_witness :
  consistent ana_created
  ∧ _initialized ana_created = true
  ∧ issued ana_created (get_user "a1b2" ana_created).2
    = index_creations ++ [FindOne USERS "a1b2"]
  ∧ issued ana_created (get_user_by_id "a1b2" ana_created).2
    = [FindOne USERS "a1b2"].
Proof.
  assert (consistent ana_created) as Hc by by_evaluation.
  assert (_initialized ana_created = true) as Hf by reflexivity.
  destruct (router_requests_reinitialize bo "a1b2" ana_created Hc) as (Hget & _ & Hrepo).
  split; [exact Hc |]. split; [exact Hf |]. split; [exact Hget | exact (Hrepo Hf)].
Defined.


Lemma stored_user_stays_found_witness :
  consistent ana_created
  ∧ mkUserDoc 1 (mkUserDB "a1b2" 1 ana) ∈ users (db ana_created)
  ∧ ∃ s', get_user "a1b2" (serve create_user [bo; bo] ana_created).2
          = (Return (mkUserOut "a1b2" 1 ana), s').
Proof.
  assert (consistent ana_created) as Hc by by_evaluation.
  assert (mkUserDoc 1 (mkUserDB "a1b2" 1 ana) ∈ users (db ana_created)) as Hin.
  { vm_compute. constructor. }
  split; [exact Hc |]. split; [exact Hin |].
  exact (proj2 (stored_user_stays_found [bo; bo] ana_created _ Hc Hin)).
Defined.

Lemma user_index_follows_creation_order_witness :
  reachable ana_created
  ∧ StronglySorted Z.lt (stored_indexes (db ana_created)).
Proof.
  assert (reachable ana_created) as Hr
    by exact (reachable_add_user ana _ (reachable_initial tokens)).
  split; [exact Hr |].
  exact (proj1 (user_index_follows_creation_order ana_created Hr)).
Defined.

Lemma add_user_returns_iff_an_id_is_new_witness :
  reachable two_created
  ∧ ("e5f6" ∉ stored_ids (db two_created))
  ∧ ∃ u s', add_user bo two_created = (Return u, s').
Proof.
  assert (reachable two_created) as Hr
    by exact (reachable_add_user bo _
                (reachable_add_user ana _ (reachable_initial tokens))).
  assert ("e5f6" ∉ stored_ids (db two_created)) as Hnew by by_evaluation.
  split; [exact Hr |]. split; [exact Hnew |].
  apply (add_user_returns_iff_an_id_is_new bo two_created Hr). right. exact Hnew.
Defined.

Lemma failed_initialize_is_not_remembered_witness :
  _initialize duplicated
  = (Raise (DuplicateKeyError "uniq_id"), (_initialize duplicated).2)
  ∧ add_user ana duplicated
    = (Raise (DuplicateKeyError "uniq_id"), (_initialize duplicated).2).
Proof.
  assert (_initialize duplicated
          = (Raise (DuplicateKeyError "uniq_id"), (_initialize duplicated).2))
    as E by (vm_compute; reflexivity).
  destruct (failed_initialize_is_not_remembered ana "a1b2" _ _ _ E)
    as (_ & _ & _ & Hadd & _).
  split; [exact E | exact Hadd].
Defined.

Lemma get_user_by_id_repeatable_witness :
  get_user_by_id "a1b2" ana_created
  = (Return (Some (mkUserOut "a1b2" 1 ana)), (get_user_by_id "a1b2" ana_created).2)
  ∧ ∃ s2, get_user_by_id "a1b2" (get_user_by_id "a1b2" ana_created).2
          = (Return (Some (mkUserOut "a1b2" 1 ana)), s2).
Proof.
  assert (get_user_by_id "a1b2" ana_created
          = (Return (Some (mkUserOut "a1b2" 1 ana)),
             (get_user_by_id "a1b2" ana_created).2))
    as E by (vm_compute; reflexivity).
  destruct (get_user_by_id_repeatable _ _ _ _ E) as (s2 & E2 & _).
  split; [exact E |]. by exists s2.
Defined.

Lemma responses_carry_distinct_ids_witness :
  consistent ana_created
  ∧ NoDup (out_id <$> returned (serve create_user [bo; bo; ana] ana_created).1).
Proof.
  assert (consistent ana_created) as Hc by by_evaluation.
  split; [exact Hc |].
  exact (proj1 (responses_carry_distinct_ids [bo; bo; ana] ana_created Hc)).
Defined.

Lemma failed_create_leaves_a_gap_witness :
  reachable stuck
  ∧ add_user bo stuck
    = (Raise (DuplicateKeyError "uniq_id"), (add_user bo stuck).2)
  ∧ last_seq (db (add_user bo stuck).2) = 2
  ∧ 2 ∉ stored_indexes (db (serve create_user [ana; bo] (add_user bo stuck).2).2).
Proof.
  assert (reachable stuck) as Hr
    by exact (reachable_add_user ana _ (reachable_initial (fun _ => "a1b2"))).
  assert (add_user bo stuck
          = (Raise (DuplicateKeyError "uniq_id"), (add_user bo stuck).2)) as E
    by (vm_compute; reflexivity).
  destruct (failed_create_leaves_a_gap bo [ana; bo] stuck _ _ Hr E) as [Hseq Hgap].
  split; [exact Hr |]. split; [exact E |]. split; [exact Hseq | exact Hgap].
Defined.
